(** * Known-broken ranges, earliest working revision and Mercurial helpers

    A shallow embedding of
    - [funfuzz/autobisectjs/known_broken_earliest_working.py]
    - [ocs/util/hg_helpers.py]
    and the properties of the regression-range resolver stated over it.

    Python [str] values are Rocq [string]s, a character being an [ascii]
    (code points below 256).  Python lists are Rocq lists; [l.append(x)] and
    [l.extend(m)] rebind the list to [l ++ [x]] and [l ++ m].  Calls that
    reach outside the process ([subprocess.run], [input], [print]) go
    through an explicit world that is threaded through the helpers. *)

From Stdlib Require Import String Ascii List ZArith Bool Lia.
Import ListNotations.
Open Scope string_scope.

(* ===================================================================== *)
(** ** Python string operations used by the sources                       *)
(* ===================================================================== *)

Module PyStr.

(** [s.startswith(pat)] *)
Fixpoint startswith (s pat : string) {struct pat} : bool :=
  match pat with
  | EmptyString => true
  | String c pat' =>
      match s with
      | EmptyString => false
      | String d s' => Ascii.eqb c d && startswith s' pat'
      end
  end.

(** [s.find(pat)], counting from position [i]: the lowest index at which
    [pat] occurs, [-1] when it does not occur. *)
Fixpoint find_from (i : Z) (s pat : string) : Z :=
  if startswith s pat then i
  else match s with
       | EmptyString => (-1)%Z
       | String _ s' => find_from (i + 1)%Z s' pat
       end.

Definition find (s pat : string) : Z := find_from 0%Z s pat.

(** [pat in s] for two strings. *)
Definition str_in (pat s : string) : bool := (0 <=? find s pat)%Z.

(** [x in l] for a list of strings: some element equals [x]. *)
Definition list_in (x : string) (l : list string) : bool :=
  existsb (String.eqb x) l.

(** [c.isspace()] on code points below 256. *)
Definition isspace (c : ascii) : bool :=
  let n := nat_of_ascii c in
  ((9 <=? n) && (n <=? 13) || (28 <=? n) && (n <=? 32)
   || (n =? 133) || (n =? 160))%nat.

Fixpoint lstrip (s : string) : string :=
  match s with
  | EmptyString => EmptyString
  | String c s' => if isspace c then lstrip s' else s
  end.

Fixpoint rstrip (s : string) : string :=
  match s with
  | EmptyString => EmptyString
  | String c s' =>
      let r := rstrip s' in
      if isspace c && String.eqb r "" then "" else String c r
  end.

(** [s.strip()] *)
Definition strip (s : string) : string := rstrip (lstrip s).

(** [s.split(sep)] for a one-character separator: always at least one
    piece, one more piece than there are separators. *)
Fixpoint split (sep : ascii) (s : string) : list string :=
  match s with
  | EmptyString => [""]
  | String c s' =>
      if Ascii.eqb c sep then "" :: split sep s'
      else match split sep s' with
           | h :: t => String c h :: t
           | [] => [String c ""]
           end
  end.

(** [sep.join(l)] *)
Definition join (sep : string) (l : list string) : string :=
  String.concat sep l.

(** [c in s] for one character. *)
Definition has_char (c : ascii) (s : string) : bool :=
  existsb (Ascii.eqb c) (list_ascii_of_string s).

(** Every character of [s] is [c]. *)
Definition all_chars (c : ascii) (s : string) : bool :=
  forallb (Ascii.eqb c) (list_ascii_of_string s).

End PyStr.

(* ===================================================================== *)
(** ** Exceptions and results                                             *)
(* ===================================================================== *)

Inductive exn : Type :=
| AssertionError
| ValueError (msg : string)
| CalledProcessError (returncode : Z)
| TimeoutExpired
| OSError
| EOFError
| SystemExit (code : Z).

Inductive result (A : Type) : Type :=
| Returned (a : A)
| Raised (e : exn).
Arguments Returned {A} a.
Arguments Raised {A} e.

(* ===================================================================== *)
(** ** known_broken_earliest_working.py                                   *)
(* ===================================================================== *)

Module KnownBroken.
Import PyStr.

(** What the [platform] module answers on the running machine.
    [mac_ver_supported] stands for
    [parse_version(platform.mac_ver()[0]) >= parse_version("10.13")],
    [parse_version] being imported from [pkg_resources]. *)
Record Platform : Type := {
  system : string;
  machine : string;
  mac_ver_supported : bool
}.

(** The attributes of [options] that the two functions read. *)
Record Options : Type := {
  disableProfiling : bool;
  enableDbg : bool;
  enableMoreDeterministic : bool;
  enableSimulatorArm32 : bool;
  enable32 : bool
}.

Definition hgrange (first_bad first_good : string) : string :=
  "(descendants(id(" ++ first_bad ++ "))-descendants(id(" ++ first_good ++ ")))".

Definition known_broken_ranges (p : Platform) (options : Options) : list string :=
  let skips := [
    hgrange "4c72627cfc6c" "926f80f2c5cc";
    hgrange "1fb7ddfad86d" "5202cfbf8d60";
    hgrange "aae4f349fa58" "c5fbbf959e23";
    hgrange "f611bc50d11c" "39d0c50a2209"
  ] in
  let skips :=
    if system p =? "Darwin" then
      (skips ++ [ hgrange "3d0236f985f8" "32cef42080b1" ])%list
    else skips in
  let skips :=
    if system p =? "Linux" then
      let skips := (skips ++ [ hgrange "e94dceac8090" "516c01f62d84" ])%list in
      let skips :=
        if machine p =? "aarch64" then
          (skips ++ [ hgrange "e8bb22053e65" "999757e9e5a5" ])%list
        else skips in
      let skips :=
        if negb (disableProfiling options) then
          (skips ++ [ hgrange "aa1da5ed8a07" "5a03382283ae" ])%list
        else skips in
      skips
    else skips in
  let skips :=
    if negb (enableDbg options) then
      (skips ++ [ hgrange "c5561749c1c6" "f4c15a88c937";
                 hgrange "247e265373eb" "e4aa68e2a85b" ])%list
    else skips in
  let skips :=
    if enableMoreDeterministic options then
      (skips ++ [ hgrange "427b854cdb1c" "4c4e45853808" ])%list
    else skips in
  let skips :=
    if enableSimulatorArm32 options then
      (skips ++ [ hgrange "284002382c21" "05669ce25b03" ])%list
    else skips in
  skips.

(** The loop over [flags] that sets [cpu_count_flag]. *)
Definition cpu_count_flag (flags : list string) : bool :=
  fold_left
    (fun cpu_count_flag entry =>
       if str_in "--cpu-count=" entry then true else cpu_count_flag)
    flags false.

Definition wasm_compiler_flags : list string :=
  ["--wasm-compiler=none"; "--wasm-compiler=baseline+ion";
   "--wasm-compiler=baseline"; "--wasm-compiler=ion"].

(** [set(l).intersection(flags)] is truthy when it is not empty. *)
Definition intersects (l flags : list string) : bool :=
  match filter (fun x => list_in x flags) l with
  | [] => false
  | _ :: _ => true
  end.

(** The list [required] as it stands when the function reaches its
    [return]. *)
Definition required_revs (p : Platform) (options : Options)
    (flags : list string) : list string :=
  let cpu_count_flag := cpu_count_flag flags in
  let required := [] in
  let required :=
    if list_in "--enable-experimental-fields" flags
    then (required ++ ["7a1ad6647c22bd34a6c70e67dc26e5b83f71cea4"])%list else required in
  let required :=
    if intersects wasm_compiler_flags flags
    then (required ++ ["48dc14f79fb0a51ca796257a4179fe6f16b71b14"])%list else required in
  let required :=
    if list_in "--more-compartments" flags
    then (required ++ ["450b8f0cbb4e494b399ebcf23a33b8d9cb883245"])%list else required in
  let required :=
    if list_in "--no-streams" flags
    then (required ++ ["c6a8b4d451afa922c4838bd202749c7e131cf05e"])%list else required in
  let required :=
    if (system p =? "Windows") && enable32 options
    then (required ++ ["577ffed9f102439db47afebcef95bbaaa2e04c93"])%list else required in
  let required :=
    if system p =? "Windows"
    then (required ++ ["c085e1b32fb9bbdb00360bfb0a1057d20a752f4c"])%list else required in
  let required :=
    if list_in "--wasm-gc" flags
    then (required ++ ["302befe7689abad94a75f66ded82d5e71b558dc4"])%list else required in
  let required :=
    if list_in "--nursery-strings=on" flags || list_in "--nursery-strings=off" flags
    then (required ++ ["321c29f4850882a2f0220a4dc041c53992c47992"])%list else required in
  let required :=
    if list_in "--spectre-mitigations=on" flags
       || list_in "--spectre-mitigations=off" flags
    then (required ++ ["a98f615965d73f6462924188fc2b1f2a620337bb"])%list else required in
  let required :=
    if list_in "--test-wasm-await-tier2" flags
    then (required ++ ["b1dc87a94262c1bf2747d2bf560e21af5deb3174"])%list else required in
  let required :=
    if system p =? "Darwin"
    then (required ++ ["e2ecf684f49e9a6f6d072c289df68ef679968c4c"])%list else required in
  let required :=
    if cpu_count_flag
    then (required ++ ["1b55231e6628e70f0c2ee2b2cb40a1e9861ac4b4"])%list else required in
  let required := (required ++ ["bb868860dfc35876d2d9c421c037c75a4fb9b3d2"])%list in
  required.

Definition common_descendants (revs : list string) : string :=
  join " and " (map (fun r => "descendants(" ++ r ++ ")") revs).

Definition earliest_known_working_rev (p : Platform) (options : Options)
    (flags : list string) (skip_revs : string) : result string :=
  if negb (negb (system p =? "Darwin") || mac_ver_supported p)
  then Raised AssertionError
  else
    let required := required_revs p options flags in
    Returned ("first((" ++ common_descendants required ++ ") - (" ++ skip_revs ++ "))").

End KnownBroken.

(* ===================================================================== *)
(** ** hg_helpers.py                                                      *)
(* ===================================================================== *)

(** How a call of [subprocess.run] ends: the child ran to its end, with an
    exit status and the captured output already decoded
    ([decode("utf-8", errors="replace")] never fails); the timeout fired;
    or the child could not be started. *)
Inductive run_outcome : Type :=
| Completed (returncode : Z) (stdout : string)
| TimedOut
| LaunchFailed.

(** What the helpers do to the outside, in the order they do it. *)
Inductive event : Type :=
| Spawn (argv : list string)
| Input (prompt : string)
| Print (msg : string).

Module HgHelpers.
Import PyStr.

Section World.

(** The outside: the history store behind [hg] and the operator at the
    terminal.  [spawn argv timeout] runs one child process;
    [read_line prompt] is [input(prompt)], [None] at end of input. *)
Variable world : Type.
Variable spawn : list string -> option Z -> world -> run_outcome * world.
Variable read_line : string -> world -> option string * world.

(** The state threaded through a helper: the world and the events so
    far. *)
Definition state : Type := world * list event.

Definition M (A : Type) : Type := state -> result A * state.

Definition ret {A} (a : A) : M A := fun s => (Returned a, s).

Definition raise {A} (e : exn) : M A := fun s => (Raised e, s).

Definition bind {A B} (m : M A) (k : A -> M B) : M B :=
  fun s =>
    match m s with
    | (Returned a, s') => k a s'
    | (Raised e, s') => (Raised e, s')
    end.

Notation "x <- m ;; k" := (bind m (fun x => k))
  (at level 61, m at next level, right associativity).
Notation "m ;; k" := (bind m (fun _ => k))
  (at level 61, right associativity).

(** [subprocess.run(argv, check=check, timeout=timeout).stdout], decoded.
    With [check=True] a non-zero exit status raises. *)
Definition subprocess_run (argv : list string) (check : bool)
    (timeout : option Z) : M string :=
  fun '(w, log) =>
    let '(o, w') := spawn argv timeout w in
    let s' := (w', (log ++ [Spawn argv])%list) in
    match o with
    | Completed returncode stdout =>
        if check && negb (returncode =? 0)%Z
        then (Raised (CalledProcessError returncode), s')
        else (Returned stdout, s')
    | TimedOut => (Raised TimeoutExpired, s')
    | LaunchFailed => (Raised OSError, s')
    end.

Definition input (prompt : string) : M string :=
  fun '(w, log) =>
    let '(o, w') := read_line prompt w in
    let s' := (w', (log ++ [Input prompt])%list) in
    match o with
    | Some line => (Returned line, s')
    | None => (Raised EOFError, s')
    end.

Definition print (msg : string) : M unit :=
  fun '(w, log) => (Returned tt, (w, (log ++ [Print msg])%list)).

Definition sys_exit {A} (code : Z) : M A := raise (SystemExit code).

Definition ancestor_query (repo_dir rev_a rev_b : string) : list string :=
  [ "hg"; "-R"; repo_dir; "log"; "-r";
    rev_a ++ " and ancestor(" ++ rev_a ++ "," ++ rev_b ++ ")";
    "--template={node|short}" ].

Definition exists_and_is_ancestor (repo_dir rev_a rev_b : string) : M bool :=
  out <- subprocess_run (ancestor_query repo_dir rev_a rev_b) false (Some 999%Z) ;;
  ret (negb (out =? "") && (find out "abort: unknown revision" <? 0)%Z).

Definition not_on_default_prompt : string :=
  "Not on default tip! Would you like to (a)bort, update to (d)efault, or (u)se this rev: ".

Definition log_query (repo_dir repo_rev : string) : list string :=
  [ "hg"; "-R"; repo_dir; "log"; "-r"; repo_rev;
    "--template"; "{node|short} {rev}" ].

Definition update_default_cmd (repo_dir : string) : list string :=
  [ "hg"; "-R"; repo_dir; "update"; "default" ].

(** The end of [get_repo_hash_and_id]: the assertion, the split and the
    unpacking into two names. *)
Definition hash_and_id (hg_id_full : string) (is_on_default : bool)
    : M (string * string * bool) :=
  if hg_id_full =? "" then raise AssertionError
  else
    match split " "%char hg_id_full with
    | [hg_id_hash; hg_id_local_num] =>
        ret (hg_id_hash, hg_id_local_num, is_on_default)
    | [_] => raise (ValueError "not enough values to unpack (expected 2, got 1)")
    | _ => raise (ValueError "too many values to unpack (expected 2)")
    end.

Definition get_repo_hash_and_id (repo_dir repo_rev : string)
    : M (string * string * bool) :=
  let hg_log_template_cmds := log_query repo_dir repo_rev in
  hg_id_full <- subprocess_run hg_log_template_cmds true (Some 99%Z) ;;
  let is_on_default := negb (hg_id_full =? "") in
  if negb is_on_default then
    update_default <- input not_on_default_prompt ;;
    let update_default := strip update_default in
    st <-
      (if update_default =? "a" then
         print "Aborting..." ;; sys_exit 0%Z
       else if update_default =? "d" then
         subprocess_run (update_default_cmd repo_dir) true None ;;
         ret (hg_log_template_cmds, true)
       else if update_default =? "u" then
         ret (log_query repo_dir "parents()", is_on_default)
       else raise (ValueError "Invalid choice.")) ;;
    let '(hg_log_template_cmds, is_on_default) := st in
    hg_id_full <- subprocess_run hg_log_template_cmds true (Some 99%Z) ;;
    hash_and_id hg_id_full is_on_default
  else hash_and_id hg_id_full is_on_default.

End World.

Arguments ret {world A} a.
Arguments raise {world A} e.
Arguments bind {world A B} m k.
Arguments print {world} msg.
Arguments sys_exit {world A} code.
Arguments hash_and_id {world} hg_id_full is_on_default.

(** The default of [repo_rev]. *)
Definition default_repo_rev : string := "parents() and default".

(** What [hgrc_repo_name] can raise: the two lookup errors of
    [configparser] and the [IndexError] of [[-1]] on an empty list. *)
Inductive config_exn : Type :=
| NoSectionError (section : string)
| NoOptionError (option section : string)
| IndexError.

(** [[i for i in default.split("/") if i]] *)
Definition path_segments (default : string) : list string :=
  filter (fun i => negb (i =? "")) (split "/"%char default).

(** [hgrc_repo_name]: [cfg_get] is [hgrc_cfg.get] once the parser has read
    [.hg/hgrc], an error of the parser on the left. *)
Definition hgrc_repo_name (cfg_get : string -> string -> config_exn + string)
    : config_exn + string :=
  match cfg_get "paths" "default" with
  | inl e => inl e
  | inr default =>
      match path_segments default with
      | [] => inl IndexError
      | i :: l => inr (last l i)
      end
  end.

End HgHelpers.

(** [sub] is [l] with some elements left out, the others in their order. *)
Inductive subseq {A : Type} : list A -> list A -> Prop :=
| subseq_nil : subseq [] []
| subseq_skip (x : A) (sub l : list A) : subseq sub l -> subseq sub (x :: l)
| subseq_keep (x : A) (sub l : list A) : subseq sub l -> subseq (x :: sub) (x :: l).

(* ===================================================================== *)
(** ** The two static tables, read as data                                *)
(* ===================================================================== *)

Module Tables.
Import PyStr KnownBroken.

(** One row per [skips.extend] of [known_broken_ranges], top to bottom:
    the condition under which the row is reached (an inner [if] under its
    enclosing one) and the ranges it adds.  The first row is the initial
    value of [skips]. *)
Definition exclusion_table : list ((Platform -> Options -> bool) * list string) :=
  [ (fun _ _ => true,
     [ hgrange "4c72627cfc6c" "926f80f2c5cc";
       hgrange "1fb7ddfad86d" "5202cfbf8d60";
       hgrange "aae4f349fa58" "c5fbbf959e23";
       hgrange "f611bc50d11c" "39d0c50a2209" ]);
    (fun p _ => system p =? "Darwin",
     [ hgrange "3d0236f985f8" "32cef42080b1" ]);
    (fun p _ => system p =? "Linux",
     [ hgrange "e94dceac8090" "516c01f62d84" ]);
    (fun p _ => (system p =? "Linux") && (machine p =? "aarch64"),
     [ hgrange "e8bb22053e65" "999757e9e5a5" ]);
    (fun p o => (system p =? "Linux") && negb (disableProfiling o),
     [ hgrange "aa1da5ed8a07" "5a03382283ae" ]);
    (fun _ o => negb (enableDbg o),
     [ hgrange "c5561749c1c6" "f4c15a88c937";
       hgrange "247e265373eb" "e4aa68e2a85b" ]);
    (fun _ o => enableMoreDeterministic o,
     [ hgrange "427b854cdb1c" "4c4e45853808" ]);
    (fun _ o => enableSimulatorArm32 o,
     [ hgrange "284002382c21" "05669ce25b03" ]) ].

(** The rows whose condition holds, their ranges in table order. *)
Definition selected_ranges (p : Platform) (o : Options) : list string :=
  flat_map
    (fun row : (Platform -> Options -> bool) * list string =>
       if fst row p o then snd row else [])
    exclusion_table.

Definition trigger : Type := Platform -> Options -> list string -> bool.

(** One row per conditional [required.append] of
    [earliest_known_working_rev], top to bottom. *)
Definition required_table : list (trigger * string) :=
  [ (fun _ _ flags => list_in "--enable-experimental-fields" flags,
     "7a1ad6647c22bd34a6c70e67dc26e5b83f71cea4");
    (fun _ _ flags => intersects wasm_compiler_flags flags,
     "48dc14f79fb0a51ca796257a4179fe6f16b71b14");
    (fun _ _ flags => list_in "--more-compartments" flags,
     "450b8f0cbb4e494b399ebcf23a33b8d9cb883245");
    (fun _ _ flags => list_in "--no-streams" flags,
     "c6a8b4d451afa922c4838bd202749c7e131cf05e");
    (fun p o _ => (system p =? "Windows") && enable32 o,
     "577ffed9f102439db47afebcef95bbaaa2e04c93");
    (fun p _ _ => system p =? "Windows",
     "c085e1b32fb9bbdb00360bfb0a1057d20a752f4c");
    (fun _ _ flags => list_in "--wasm-gc" flags,
     "302befe7689abad94a75f66ded82d5e71b558dc4");
    (fun _ _ flags =>
       list_in "--nursery-strings=on" flags || list_in "--nursery-strings=off" flags,
     "321c29f4850882a2f0220a4dc041c53992c47992");
    (fun _ _ flags =>
       list_in "--spectre-mitigations=on" flags
       || list_in "--spectre-mitigations=off" flags,
     "a98f615965d73f6462924188fc2b1f2a620337bb");
    (fun _ _ flags => list_in "--test-wasm-await-tier2" flags,
     "b1dc87a94262c1bf2747d2bf560e21af5deb3174");
    (fun p _ _ => system p =? "Darwin",
     "e2ecf684f49e9a6f6d072c289df68ef679968c4c");
    (fun _ _ flags => cpu_count_flag flags,
     "1b55231e6628e70f0c2ee2b2cb40a1e9861ac4b4") ].

(** The revision appended without a condition. *)
Definition baseline_rev : string := "bb868860dfc35876d2d9c421c037c75a4fb9b3d2".

Definition wasm_gc_rev : string := "302befe7689abad94a75f66ded82d5e71b558dc4".

(** The revisions of the rows whose trigger matches, in table order. *)
Definition matched_revs (p : Platform) (o : Options) (flags : list string)
    : list string :=
  map snd (filter (fun row : trigger * string => fst row p o flags) required_table).

(** One conditional [required.append]. *)
Definition append_if_triggered (p : Platform) (o : Options) (flags : list string)
    (required : list string) (row : trigger * string) : list string :=
  if fst row p o flags then (required ++ [snd row])%list else required.

(** The rows of a table that stand above the row of [rev]. *)
Fixpoint rows_above (rev : string) (t : list (trigger * string))
    : list (trigger * string) :=
  match t with
  | [] => []
  | row :: t' => if snd row =? rev then [] else row :: rows_above rev t'
  end.

End Tables.

(* ===================================================================== *)
(** ** Revsets                                                            *)
(* ===================================================================== *)

Module Revset.

(** The revset operators that [hgrange] writes. *)
Inductive revset : Type :=
| Id (hash : string)
| Descendants (x : revset)
| Minus (x y : revset).

(** The text of a revset, as [hgrange] spells it. *)
Fixpoint show (e : revset) : string :=
  match e with
  | Id hash => "id(" ++ hash ++ ")"
  | Descendants x => "descendants(" ++ show x ++ ")"
  | Minus x y => "(" ++ show x ++ "-" ++ show y ++ ")"
  end.

Definition range (first_bad first_good : string) : revset :=
  Minus (Descendants (Id first_bad)) (Descendants (Id first_good)).

Section Semantics.

(** Modelled from the spec: the history store that evaluates a revset
    is Mercurial, outside the repository.  A history is a set of
    changesets, [lookup hash] is the changeset with that hash ([None]
    when the store does not know it, so that [id(hash)] is the empty
    set), and [reaches x y] says that [y] is reachable forward from
    [x]. *)
Variable changeset : Type.
Variable lookup : string -> option changeset.
Variable reaches : changeset -> changeset -> Prop.

Fixpoint denote (e : revset) (c : changeset) : Prop :=
  match e with
  | Id hash => lookup hash = Some c
  | Descendants x => exists a, denote x a /\ reaches a c
  | Minus x y => denote x c /\ ~ denote y c
  end.

(** [descendants(id(hash))] as a set. *)
Definition descendants_of (hash : string) (c : changeset) : Prop :=
  exists a, lookup hash = Some a /\ reaches a c.

End Semantics.

(** A history in a line, 0 -> 1 -> 2 -> ..., the first three changesets
    with hashes ["aaa"], ["bbb"] and ["ccc"]. *)
Definition line_lookup (hash : string) : option nat :=
  if hash =? "aaa" then Some 0
  else if hash =? "bbb" then Some 1
  else if hash =? "ccc" then Some 2
  else None.

Definition line_reaches (x y : nat) : Prop := x <= y.

End Revset.

(* ===================================================================== *)
(** ** Example inputs                                                     *)
(* ===================================================================== *)

Module Examples.
Import KnownBroken.

Definition linux_x86_64 : Platform :=
  {| system := "Linux"; machine := "x86_64"; mac_ver_supported := false |}.

Definition linux_aarch64 : Platform :=
  {| system := "Linux"; machine := "aarch64"; mac_ver_supported := false |}.

(** Every option at its default. *)
Definition no_options : Options :=
  {| disableProfiling := false; enableDbg := false;
     enableMoreDeterministic := false; enableSimulatorArm32 := false;
     enable32 := false |}.

Definition deterministic_options : Options :=
  {| disableProfiling := false; enableDbg := false;
     enableMoreDeterministic := true; enableSimulatorArm32 := false;
     enable32 := false |}.

(** A history store that answers every query the same way, and an
    operator who types the same line at every prompt. *)
Definition fixed_spawn (o : run_outcome)
    (argv : list string) (timeout : option Z) (w : unit) : run_outcome * unit :=
  (o, w).

Definition fixed_line (line : string) (prompt : string) (w : unit)
    : option string * unit :=
  (Some line, w).

(** A history store that reads its answers off a script, one per child
    process, and cannot start a child once the script is used up. *)
Definition scripted_spawn
    (argv : list string) (timeout : option Z) (w : list run_outcome)
    : run_outcome * list run_outcome :=
  match w with
  | [] => (LaunchFailed, [])
  | o :: w' => (o, w')
  end.

Definition scripted_line (line : string) (prompt : string)
    (w : list run_outcome) : option string * list run_outcome :=
  (Some line, w).

End Examples.

(** A revision identifier the spec calls malformed: empty, or with a
    white-space character in it. *)
Definition malformed (rev : string) : bool :=
  (rev =? "") || existsb PyStr.isspace (list_ascii_of_string rev).

(** A call [hgrange(first_bad, first_good)] on two strings: the body is one
    [return] of a formatted string, nothing in it raises. *)
Definition hgrange_call (first_bad first_good : string) : result string :=
  Returned (KnownBroken.hgrange first_bad first_good).

(* ===================================================================== *)
(** ** Strings                                                            *)
(* ===================================================================== *)

Section StringFacts.
Import PyStr.

Lemma startswith_app (pat t : string) : startswith (pat ++ t) pat = true.
Proof.
  induction pat as [|c pat IH]; simpl.
  - reflexivity.
  - rewrite Ascii.eqb_refl. exact IH.
Qed.

Lemma startswith_inv (s pat : string) :
  startswith s pat = true -> exists t, s = pat ++ t.
Proof.
  revert s. induction pat as [|c pat IH]; intros s H.
  - exists s. reflexivity.
  - destruct s as [|d s]; simpl in H; [discriminate|].
    apply andb_prop in H. destruct H as [Hc Hs].
    apply Ascii.eqb_eq in Hc. subst d.
    destruct (IH s Hs) as [t ->]. exists t. reflexivity.
Qed.

Lemma find_from_range (i : Z) (s pat : string) :
  find_from i s pat = (-1)%Z \/ (i <= find_from i s pat)%Z.
Proof.
  revert i. induction s as [|c s IH]; intros i; simpl.
  - destruct (startswith "" pat); [right; lia | left; reflexivity].
  - destruct (startswith (String c s) pat).
    + right. lia.
    + destruct (IH (i + 1)%Z) as [E|E]; [left; exact E | right; lia].
Qed.

Lemma find_from_eq (i : Z) (s pat : string) :
  find_from i s pat =
    if startswith s pat then i
    else match s with
         | EmptyString => (-1)%Z
         | String _ s' => find_from (i + 1)%Z s' pat
         end.
Proof. destruct s; reflexivity. Qed.

Lemma find_from_found (i : Z) (pre pat post : string) :
  (0 <= i)%Z -> (0 <= find_from i (pre ++ pat ++ post) pat)%Z.
Proof.
  revert i. induction pre as [|c pre IH]; intros i Hi.
  - change ("" ++ pat ++ post) with (pat ++ post).
    rewrite find_from_eq, startswith_app. exact Hi.
  - change (String c pre ++ pat ++ post) with (String c (pre ++ pat ++ post)).
    rewrite find_from_eq.
    destruct (startswith (String c (pre ++ pat ++ post)) pat); [exact Hi|].
    apply IH. lia.
Qed.

Lemma find_from_occurs (i : Z) (s pat : string) :
  (0 <= i)%Z -> (0 <= find_from i s pat)%Z ->
  exists pre post, s = pre ++ pat ++ post.
Proof.
  revert i. induction s as [|c s IH]; intros i Hi H; simpl in H.
  - destruct (startswith "" pat) eqn:E; [|lia].
    apply startswith_inv in E. destruct E as [t E].
    exists "", t. exact E.
  - destruct (startswith (String c s) pat) eqn:E.
    + apply startswith_inv in E. destruct E as [t E].
      exists "", t. exact E.
    + destruct (IH (i + 1)%Z) as [pre [post E']]; [lia | exact H |].
      exists (String c pre), post. rewrite E'. reflexivity.
Qed.

(** [find] answers a position exactly when the pattern occurs. *)
Lemma find_occurs (s pat : string) :
  (0 <= find s pat)%Z <-> exists pre post, s = pre ++ pat ++ post.
Proof.
  unfold find. split.
  - apply find_from_occurs. lia.
  - intros [pre [post ->]]. apply find_from_found. lia.
Qed.

Lemma list_in_In (x : string) (l : list string) :
  list_in x l = true <-> In x l.
Proof.
  unfold list_in. rewrite existsb_exists. split.
  - intros [y [Hy E]]. apply String.eqb_eq in E. subst y. exact Hy.
  - intros H. exists x. split; [exact H | apply String.eqb_refl].
Qed.

End StringFacts.


(* ===================================================================== *)
(** ** The exclusion table                                                *)
(* ===================================================================== *)

Import PyStr KnownBroken Tables Examples.

(** [known_broken_ranges] builds, [extend] after [extend], the ranges of the
    table rows whose condition holds. *)
Lemma known_broken_ranges_table (p : Platform) (o : Options) :
  known_broken_ranges p o = selected_ranges p o.
Proof.
  unfold known_broken_ranges, selected_ranges, exclusion_table.
  cbn [flat_map fst snd].
  destruct (system p =? "Darwin"), (system p =? "Linux"),
    (machine p =? "aarch64"), (disableProfiling o), (enableDbg o),
    (enableMoreDeterministic o), (enableSimulatorArm32 o); reflexivity.
Qed.

Lemma in_selected_ranges (p : Platform) (o : Options) (r : string) :
  In r (selected_ranges p o) <->
  exists row, In row exclusion_table /\ fst row p o = true /\ In r (snd row).
Proof.
  unfold selected_ranges. rewrite in_flat_map. split.
  - intros [row [Hrow Hr]]. exists row.
    destruct (fst row p o); [auto | contradiction].
  - intros [row [Hrow [Hc Hr]]]. exists row. rewrite Hc. auto.
Qed.

(** C2, amended.  On Linux with an x86_64 machine the list holds the
    generic GCC 5 range and does not hold the aarch64 range; it holds the
    profiling range exactly when [disableProfiling] is not set, so with
    every option at its default the profiling range is in the list. *)
Theorem linux_x86_64_ranges (p : Platform) (o : Options) :
  system p = "Linux" -> machine p = "x86_64" ->
  In (hgrange "e94dceac8090" "516c01f62d84") (known_broken_ranges p o)
  /\ ~ In (hgrange "e8bb22053e65" "999757e9e5a5") (known_broken_ranges p o)
  /\ (In (hgrange "aa1da5ed8a07" "5a03382283ae") (known_broken_ranges p o)
      <-> disableProfiling o = false).
Proof.
  intros Hs Hm. unfold known_broken_ranges. rewrite Hs, Hm.
  destruct o as [dp dbg det arm e32].
  destruct dp, dbg, det, arm; cbn;
    (split; [tauto | split; intuition discriminate]).
Qed.

Lemma linux_x86_64_ranges_default :
  In (hgrange "e94dceac8090" "516c01f62d84")
     (known_broken_ranges linux_x86_64 no_options)
  /\ In (hgrange "aa1da5ed8a07" "5a03382283ae")
        (known_broken_ranges linux_x86_64 no_options).
Proof.
  destruct (linux_x86_64_ranges linux_x86_64 no_options eq_refl eq_refl)
    as [Hgcc [_ Hprof]].
  split; [exact Hgcc | apply Hprof; reflexivity].
Defined.

(** C2 as stated fails: on Linux/x86_64 with every option at its default
    ([disableProfiling] not set) the profiling range is selected, so the
    three parts of the claim do not hold together. *)
Lemma profiling_range_selected_by_default :
  ~ (In (hgrange "e94dceac8090" "516c01f62d84")
        (known_broken_ranges linux_x86_64 no_options)
     /\ ~ In (hgrange "e8bb22053e65" "999757e9e5a5")
            (known_broken_ranges linux_x86_64 no_options)
     /\ ~ In (hgrange "aa1da5ed8a07" "5a03382283ae")
            (known_broken_ranges linux_x86_64 no_options)).
Proof.
  intros [_ [_ Hprof]]. apply Hprof. vm_compute. tauto.
Qed.

(** C5.  Selection is monotonic: when every condition of the table that
    holds under the first facts also holds under the second, every range
    selected under the first is selected under the second. *)
Theorem known_broken_ranges_monotone (p1 p2 : Platform) (o1 o2 : Options) :
  (forall row, In row exclusion_table ->
     fst row p1 o1 = true -> fst row p2 o2 = true) ->
  forall r, In r (known_broken_ranges p1 o1) -> In r (known_broken_ranges p2 o2).
Proof.
  intros Hmono r. rewrite !known_broken_ranges_table, !in_selected_ranges.
  intros [row [Hrow [Hc Hr]]]. exists row. auto.
Qed.

Lemma known_broken_ranges_monotone_example :
  In (hgrange "aa1da5ed8a07" "5a03382283ae")
     (known_broken_ranges linux_aarch64 deterministic_options).
Proof.
  apply (known_broken_ranges_monotone linux_x86_64 linux_aarch64
           no_options deterministic_options).
  - intros row Hrow. simpl in Hrow.
    repeat (destruct Hrow as [<- | Hrow]; [simpl; auto|]).
    contradiction.
  - vm_compute. tauto.
Defined.

(** C10.  Whatever the platform and the options, the list starts with the
    four unconditional ranges, in their order; what the conditions add
    comes after them. *)
Theorem known_broken_ranges_base_prefix (p : Platform) (o : Options) :
  exists rest,
    known_broken_ranges p o =
      ([ hgrange "4c72627cfc6c" "926f80f2c5cc";
         hgrange "1fb7ddfad86d" "5202cfbf8d60";
         hgrange "aae4f349fa58" "c5fbbf959e23";
         hgrange "f611bc50d11c" "39d0c50a2209" ] ++ rest)%list
    /\ 4 <= length (known_broken_ranges p o).
Proof.
  rewrite known_broken_ranges_table.
  unfold selected_ranges, exclusion_table. cbn [flat_map fst snd].
  eexists. split; [reflexivity|].
  rewrite length_app. cbn [length]. lia.
Qed.


(* ===================================================================== *)
(** ** The required revisions                                             *)
(* ===================================================================== *)

Section RequiredRevs.

Variable p : Platform.
Variable o : Options.
Variable flags : list string.

Lemma fold_append_if_triggered (t : list (trigger * string)) (acc : list string) :
  fold_left (append_if_triggered p o flags) t acc =
    (acc ++ map snd (filter (fun row : trigger * string => fst row p o flags) t))%list.
Proof.
  revert acc. induction t as [|row t IH]; intros acc; simpl.
  - symmetry. apply app_nil_r.
  - rewrite IH. unfold append_if_triggered.
    destruct (fst row p o flags); simpl.
    + rewrite <- app_assoc. reflexivity.
    + reflexivity.
Qed.

(** [required] is, append after append, the revisions of the table rows
    whose trigger matches, and then the baseline. *)
Lemma required_revs_table :
  required_revs p o flags = (matched_revs p o flags ++ [baseline_rev])%list.
Proof.
  transitivity
    (fold_left (append_if_triggered p o flags) required_table [] ++ [baseline_rev])%list.
  - reflexivity.
  - rewrite fold_append_if_triggered. reflexivity.
Qed.

Lemma in_matched_revs (rev : string) :
  In rev (matched_revs p o flags) <->
  exists trig, In (trig, rev) required_table /\ trig p o flags = true.
Proof.
  unfold matched_revs. rewrite in_map_iff. split.
  - intros [[trig rev'] [E H]]. simpl in E. subst rev'.
    apply filter_In in H. exists trig. exact H.
  - intros [trig H]. exists (trig, rev). split; [reflexivity|].
    apply filter_In. exact H.
Qed.

End RequiredRevs.

Lemma required_table_revs_distinct : NoDup (map snd required_table).
Proof.
  unfold required_table. cbn [map snd].
  repeat (constructor; [cbn [In]; intuition discriminate|]).
  constructor.
Qed.

Lemma row_of_rev_unique {A B : Type} (t : list (A * B)) (a a' : A) (b : B) :
  NoDup (map snd t) -> In (a, b) t -> In (a', b) t -> a = a'.
Proof.
  induction t as [|[x y] t IH]; simpl; intros Hnd H H'; [contradiction|].
  inversion Hnd as [|? ? Hnotin Hnd']; subst.
  destruct H as [H|H], H' as [H'|H'].
  - congruence.
  - inversion H; subst. exfalso. apply Hnotin.
    apply in_map_iff. exists (a', b). auto.
  - inversion H'; subst. exfalso. apply Hnotin.
    apply in_map_iff. exists (a, b). auto.
  - auto.
Qed.

Lemma baseline_not_in_table : ~ In baseline_rev (map snd required_table).
Proof.
  unfold required_table, baseline_rev. cbn [map snd In].
  intuition discriminate.
Qed.

(** C3, amended.  With ["--wasm-gc"] among the flags the required list
    holds the wasm-gc revision and the baseline, and it holds the revision
    of any row of the table, above or below the wasm-gc row, exactly when
    that row's own trigger matches. *)
Theorem wasm_gc_required (p : Platform) (o : Options) (flags : list string) :
  In "--wasm-gc" flags ->
  In wasm_gc_rev (required_revs p o flags)
  /\ In baseline_rev (required_revs p o flags)
  /\ forall trig rev, In (trig, rev) required_table ->
       (In rev (required_revs p o flags) <-> trig p o flags = true).
Proof.
  intros Hgc. rewrite required_revs_table. repeat split.
  - apply in_or_app. left. apply in_matched_revs.
    exists (fun _ _ flags => list_in "--wasm-gc" flags). split.
    + unfold required_table. cbn [In]. tauto.
    + apply list_in_In. exact Hgc.
  - apply in_or_app. right. left. reflexivity.
  - intros Hin. apply in_app_or in Hin. destruct Hin as [Hin|Hin].
    + apply in_matched_revs in Hin. destruct Hin as [trig' [Hrow Ht]].
      rewrite (row_of_rev_unique required_table trig trig' rev
                 required_table_revs_distinct H Hrow).
      exact Ht.
    + destruct Hin as [E|[]]. exfalso. apply baseline_not_in_table.
      rewrite E. apply in_map_iff. exists (trig, rev). auto.
  - intros Ht. apply in_or_app. left. apply in_matched_revs.
    exists trig. auto.
Qed.

Lemma wasm_gc_required_example :
  In wasm_gc_rev (required_revs linux_x86_64 no_options ["--wasm-gc"]).
Proof.
  exact (proj1 (wasm_gc_required linux_x86_64 no_options ["--wasm-gc"]
                  (or_introl eq_refl))).
Defined.

(** C3 as stated fails: with ["--wasm-gc"] as the only flag, on Linux, the
    revision of the first row of the table, which stands above the wasm-gc
    row, is not in the required list. *)
Lemma rows_above_wasm_gc_not_required :
  In "--wasm-gc" ["--wasm-gc"]
  /\ In "7a1ad6647c22bd34a6c70e67dc26e5b83f71cea4"
        (map snd (rows_above wasm_gc_rev required_table))
  /\ ~ In "7a1ad6647c22bd34a6c70e67dc26e5b83f71cea4"
         (required_revs linux_x86_64 no_options ["--wasm-gc"]).
Proof.
  split; [left; reflexivity|]. split.
  - vm_compute. tauto.
  - vm_compute. intuition discriminate.
Qed.

(** C6.  Whatever the platform, the options and the flags, the required
    list is not empty and its last element is the baseline revision; the
    function raises only through its assertion on the macOS version and
    otherwise returns the revset written from that list. *)
Theorem required_revs_ends_with_baseline
    (p : Platform) (o : Options) (flags : list string) :
  required_revs p o flags <> []
  /\ last (required_revs p o flags) "" = baseline_rev
  /\ forall skip_revs,
       earliest_known_working_rev p o flags skip_revs =
         if (system p =? "Darwin") && negb (mac_ver_supported p)
         then Raised AssertionError
         else Returned ("first(("
                        ++ common_descendants
                             (matched_revs p o flags ++ [baseline_rev])
                        ++ ") - (" ++ skip_revs ++ "))").
Proof.
  unfold earliest_known_working_rev. rewrite required_revs_table.
  split; [|split].
  - intros E. apply app_eq_nil in E. destruct E as [_ E]. discriminate.
  - apply last_last.
  - intros skip_revs.
    destruct (system p =? "Darwin"), (mac_ver_supported p); reflexivity.
Qed.


(* ===================================================================== *)
(** ** The ancestry check                                                 *)
(* ===================================================================== *)

Import HgHelpers.

Section Ancestry.

Variable world : Type.
Variable spawn : list string -> option Z -> world -> run_outcome * world.

(** What the check answers once the child has run to its end: the exit
    status plays no part. *)
Lemma exists_and_is_ancestor_completed
    (repo_dir rev_a rev_b : string) (w w' : world) (log : list event)
    (returncode : Z) (out : string) :
  spawn (ancestor_query repo_dir rev_a rev_b) (Some 999%Z) w
    = (Completed returncode out, w') ->
  exists_and_is_ancestor world spawn repo_dir rev_a rev_b (w, log) =
    (Returned (negb (out =? "") && (find out "abort: unknown revision" <? 0)%Z),
     (w', (log ++ [Spawn (ancestor_query repo_dir rev_a rev_b)])%list)).
Proof.
  intros Hrun. unfold exists_and_is_ancestor, bind, subprocess_run.
  rewrite Hrun. reflexivity.
Qed.

End Ancestry.

(** C8.  When the output of the history store carries
    "abort: unknown revision", the check returns [False]; it does not
    raise. *)
Theorem unknown_revision_is_false
    (world : Type) (spawn : list string -> option Z -> world -> run_outcome * world)
    (repo_dir rev_a rev_b : string) (w w' : world) (log : list event)
    (returncode : Z) (out pre post : string) :
  spawn (ancestor_query repo_dir rev_a rev_b) (Some 999%Z) w
    = (Completed returncode out, w') ->
  out = pre ++ "abort: unknown revision" ++ post ->
  exists_and_is_ancestor world spawn repo_dir rev_a rev_b (w, log) =
    (Returned false,
     (w', (log ++ [Spawn (ancestor_query repo_dir rev_a rev_b)])%list)).
Proof.
  intros Hrun Hout.
  rewrite (exists_and_is_ancestor_completed world spawn _ _ _ _ _ _ _ _ Hrun).
  assert (Hfind : (0 <= find out "abort: unknown revision")%Z).
  { apply find_occurs. exists pre, post. exact Hout. }
  apply Z.ltb_ge in Hfind. rewrite Hfind, andb_false_r. reflexivity.
Qed.

Lemma unknown_revision_is_false_example :
  exists_and_is_ancestor unit
    (fixed_spawn (Completed 255 "abort: unknown revision 'deadbeef'!"))
    "/repo" "0123456789ab" "deadbeef" (tt, []) =
  (Returned false,
   (tt, [Spawn (ancestor_query "/repo" "0123456789ab" "deadbeef")])).
Proof.
  apply (unknown_revision_is_false unit
           (fixed_spawn (Completed 255 "abort: unknown revision 'deadbeef'!"))
           "/repo" "0123456789ab" "deadbeef" tt tt [] 255%Z
           "abort: unknown revision 'deadbeef'!" "" " 'deadbeef'!").
  - reflexivity.
  - reflexivity.
Defined.

(** A timeout, or a child that cannot be started, propagates to the caller
    as an exception, after the one attempt. *)
Theorem ancestry_check_propagates
    (world : Type) (spawn : list string -> option Z -> world -> run_outcome * world)
    (repo_dir rev_a rev_b : string) (w w' : world) (log : list event)
    (o : run_outcome) :
  spawn (ancestor_query repo_dir rev_a rev_b) (Some 999%Z) w = (o, w') ->
  let after := (w', (log ++ [Spawn (ancestor_query repo_dir rev_a rev_b)])%list) in
  match o with
  | Completed _ _ => True
  | TimedOut =>
      exists_and_is_ancestor world spawn repo_dir rev_a rev_b (w, log)
        = (Raised TimeoutExpired, after)
  | LaunchFailed =>
      exists_and_is_ancestor world spawn repo_dir rev_a rev_b (w, log)
        = (Raised OSError, after)
  end.
Proof.
  intros Hrun after. destruct o as [returncode out| |].
  - exact I.
  - unfold exists_and_is_ancestor, bind, subprocess_run. rewrite Hrun. reflexivity.
  - unfold exists_and_is_ancestor, bind, subprocess_run. rewrite Hrun. reflexivity.
Qed.

Lemma ancestry_check_propagates_example :
  exists_and_is_ancestor unit (fixed_spawn TimedOut) "/repo" "aaa" "bbb" (tt, [])
  = (Raised TimeoutExpired, (tt, [Spawn (ancestor_query "/repo" "aaa" "bbb")])).
Proof.
  apply (ancestry_check_propagates unit (fixed_spawn TimedOut)
           "/repo" "aaa" "bbb" tt tt [] TimedOut).
  reflexivity.
Defined.

(** C1.  The code at the failing input: the child ends with exit status
    255 and the message of a repository that is not there, which is not
    the unknown-revision one.  The claim asks for an error, and the
    docstring for [True] only when [rev_a] exists and is an ancestor of
    [rev_b]; the check returns [True]. *)
Lemma other_failure_returns_true :
  (255 <> 0)%Z
  /\ (find "abort: repository /repo not found!" "abort: unknown revision" < 0)%Z
  /\ exists_and_is_ancestor unit
       (fixed_spawn (Completed 255 "abort: repository /repo not found!"))
       "/repo" "aaa" "bbb" (tt, [])
     = (Returned true, (tt, [Spawn (ancestor_query "/repo" "aaa" "bbb")])).
Proof.
  split; [discriminate|]. split; reflexivity.
Qed.


(* ===================================================================== *)
(** ** The checkout position and the operator's answer                    *)
(* ===================================================================== *)

(** Run [get_repo_hash_and_id] up to the operator's answer: the first query
    ([Hquery], empty output) and the prompt ([Hread]). *)
Ltac to_answer Hquery Hread :=
  unfold get_repo_hash_and_id;
  unfold bind at 1; unfold subprocess_run at 1; rewrite Hquery;
  cbn [andb negb Z.eqb String.eqb];
  unfold bind at 1; unfold input; rewrite Hread;
  cbv zeta.

(** C9, amended.  When the position query ends well with empty output the
    operator is asked, and the answer is read after [strip()]: ["a"] prints
    and leaves with [sys.exit(0)] without another child process; ["d"]
    runs [hg update default] and, when that ends well, asks the first
    query again, now on default; ["u"] asks for ["parents()"] instead;
    anything else raises [ValueError("Invalid choice.")]. *)
Theorem operator_answer
    (world : Type) (spawn : list string -> option Z -> world -> run_outcome * world)
    (read_line : string -> world -> option string * world)
    (repo_dir repo_rev answer : string) (w w1 w2 : world) (log : list event) :
  spawn (log_query repo_dir repo_rev) (Some 99%Z) w = (Completed 0 "", w1) ->
  read_line not_on_default_prompt w1 = (Some answer, w2) ->
  let run := get_repo_hash_and_id world spawn read_line repo_dir repo_rev (w, log) in
  let asked :=
    (log ++ [Spawn (log_query repo_dir repo_rev); Input not_on_default_prompt])%list in
  (strip answer = "a" ->
     run = (Raised (SystemExit 0), (w2, (asked ++ [Print "Aborting..."])%list)))
  /\ (strip answer = "d" ->
      forall out w3,
        spawn (update_default_cmd repo_dir) None w2 = (Completed 0 out, w3) ->
        run =
          bind (subprocess_run world spawn (log_query repo_dir repo_rev) true (Some 99%Z))
               (fun hg_id_full => hash_and_id hg_id_full true)
               (w3, (asked ++ [Spawn (update_default_cmd repo_dir)])%list))
  /\ (strip answer = "u" ->
      run =
        bind (subprocess_run world spawn (log_query repo_dir "parents()") true (Some 99%Z))
             (fun hg_id_full => hash_and_id hg_id_full false)
             (w2, asked))
  /\ (strip answer <> "a" -> strip answer <> "d" -> strip answer <> "u" ->
      run = (Raised (ValueError "Invalid choice."), (w2, asked))).
Proof.
  intros Hquery Hread run asked.
  assert (Hlog : ((log ++ [Spawn (log_query repo_dir repo_rev)])
                    ++ [Input not_on_default_prompt])%list = asked).
  { subst asked. rewrite <- app_assoc. reflexivity. }
  repeat split.
  - intros Ha. subst run. to_answer Hquery Hread.
    rewrite Ha, Hlog. reflexivity.
  - intros Hd out w3 Hupdate. subst run. to_answer Hquery Hread.
    rewrite Hd, Hlog. cbn [String.eqb Ascii.eqb Bool.eqb].
    unfold bind at 1. unfold bind at 1. unfold subprocess_run at 1.
    rewrite Hupdate. reflexivity.
  - intros Hu. subst run. to_answer Hquery Hread.
    rewrite Hu, Hlog. reflexivity.
  - intros Ha Hd Hu. subst run. to_answer Hquery Hread.
    apply String.eqb_neq in Ha, Hd, Hu. rewrite Ha, Hd, Hu, Hlog. reflexivity.
Qed.

Lemma operator_answer_abort_example :
  get_repo_hash_and_id unit (fixed_spawn (Completed 0 "")) (fixed_line "a")
    "/repo" default_repo_rev (tt, [])
  = (Raised (SystemExit 0),
     (tt, [ Spawn (log_query "/repo" default_repo_rev);
            Input not_on_default_prompt; Print "Aborting..." ])).
Proof.
  destruct (operator_answer unit (fixed_spawn (Completed 0 "")) (fixed_line "a")
              "/repo" default_repo_rev "a" tt tt tt [] eq_refl eq_refl)
    as [Habort _].
  exact (Habort eq_refl).
Defined.

(** C9 as stated fails: the line [" a"] is none of the three codes, and the
    function leaves with [sys.exit(0)] instead of raising [ValueError]. *)
Lemma padded_answer_accepted :
  " a" <> "a" /\ " a" <> "d" /\ " a" <> "u"
  /\ fst (get_repo_hash_and_id unit (fixed_spawn (Completed 0 "")) (fixed_line " a")
            "/repo" default_repo_rev (tt, []))
     = Raised (SystemExit 0).
Proof.
  repeat split; try discriminate.
Qed.


(* ===================================================================== *)
(** ** What a range denotes                                               *)
(* ===================================================================== *)

Import Revset.

Lemma string_app_assoc (a b c : string) : (a ++ b) ++ c = a ++ (b ++ c).
Proof.
  induction a as [|x a IH]; simpl.
  - reflexivity.
  - rewrite IH. reflexivity.
Qed.

(** [hgrange] writes the text of the difference of two descendant sets. *)
Lemma hgrange_show (first_bad first_good : string) :
  hgrange first_bad first_good = show (range first_bad first_good).
Proof.
  unfold hgrange, range. cbn [show].
  repeat rewrite string_app_assoc. reflexivity.
Qed.

(** C4, amended.  [hgrange] checks nothing: for any two strings, malformed
    or not, the call returns the formatted text and never raises. *)
Theorem hgrange_never_fails (first_bad first_good : string) :
  hgrange_call first_bad first_good =
    Returned ("(descendants(id(" ++ first_bad
              ++ "))-descendants(id(" ++ first_good ++ ")))")
  /\ (forall e, hgrange_call first_bad first_good <> Raised e)
  /\ hgrange first_bad first_good = show (range first_bad first_good).
Proof.
  split; [reflexivity|]. split.
  - intros e. discriminate.
  - apply hgrange_show.
Qed.

(** C4 as stated fails: with an empty string and a blank as the two
    identifiers the call returns a text instead of raising. *)
Lemma malformed_revision_accepted :
  malformed "" = true /\ malformed " " = true
  /\ hgrange_call "" " " = Returned "(descendants(id())-descendants(id( )))".
Proof.
  repeat split.
Qed.

(** C7, amended.  Where [descendants(x)] includes [x], the text written by
    [hgrange] denotes the descendants of [first_bad] less the descendants
    of [first_good]; that set never holds [first_good], and it holds
    [first_bad], when the store knows it, exactly when [first_bad] is not
    itself a descendant of [first_good]. *)
Theorem hgrange_denotation
    (changeset : Type) (lookup : string -> option changeset)
    (reaches : changeset -> changeset -> Prop)
    (first_bad first_good : string) :
  (forall c, reaches c c) ->
  hgrange first_bad first_good = show (range first_bad first_good)
  /\ (forall c,
        denote changeset lookup reaches (range first_bad first_good) c <->
        descendants_of changeset lookup reaches first_bad c
        /\ ~ descendants_of changeset lookup reaches first_good c)
  /\ (forall bad, lookup first_bad = Some bad ->
        (denote changeset lookup reaches (range first_bad first_good) bad <->
         ~ descendants_of changeset lookup reaches first_good bad))
  /\ (forall good, lookup first_good = Some good ->
        ~ denote changeset lookup reaches (range first_bad first_good) good).
Proof.
  intros Hrefl. split; [apply hgrange_show|].
  assert (Hden : forall c,
             denote changeset lookup reaches (range first_bad first_good) c <->
             descendants_of changeset lookup reaches first_bad c
             /\ ~ descendants_of changeset lookup reaches first_good c).
  { intros c. unfold range, descendants_of. cbn [denote]. tauto. }
  split; [exact Hden|]. split.
  - intros bad Hbad. rewrite Hden. split.
    + intros [_ H]. exact H.
    + intros H. split; [|exact H]. exists bad. auto.
  - intros good Hgood Hin. apply Hden in Hin. destruct Hin as [_ Hnot].
    apply Hnot. exists good. auto.
Qed.

Lemma hgrange_denotation_example :
  denote nat line_lookup line_reaches (range "aaa" "bbb") 0.
Proof.
  destruct (hgrange_denotation nat line_lookup line_reaches "aaa" "bbb"
              Nat.le_refl) as [_ [_ [Hbad _]]].
  apply (Hbad 0 eq_refl).
  intros [a [Ha Hle]]. vm_compute in Ha. injection Ha as <-.
  unfold line_reaches in Hle. lia.
Defined.

(** C7 as stated fails: the pair may name the same changeset twice; the
    store knows it, descendants include it, and the range is empty. *)
Lemma same_revision_range_is_empty :
  line_lookup "aaa" = Some 0
  /\ (forall c, line_reaches c c)
  /\ ~ denote nat line_lookup line_reaches (range "aaa" "aaa") 0.
Proof.
  split; [reflexivity|]. split; [exact Nat.le_refl|].
  cbn [range denote]. intros [Hin Hnot]. apply Hnot. exact Hin.
Qed.


(* ===================================================================== *)
(** ** More on strings: splitting                                         *)
(* ===================================================================== *)

Section SplitFacts.

Variable sep : ascii.

Lemma split_not_nil (s : string) : split sep s <> [].
Proof.
  destruct s as [|c s]; simpl; [discriminate|].
  destruct (Ascii.eqb c sep); [discriminate|].
  destruct (split sep s); discriminate.
Qed.

Lemma split_cons_other (c : ascii) (s : string) :
  Ascii.eqb c sep = false ->
  exists h t, split sep s = h :: t /\ split sep (String c s) = String c h :: t.
Proof.
  intros Hc. simpl. rewrite Hc.
  destruct (split sep s) as [|h t] eqn:E.
  - exfalso. exact (split_not_nil s E).
  - exists h, t. auto.
Qed.

(** Splitting around one separator: the pieces of the left part, then the
    pieces of the right part. *)
Lemma split_app_sep (a b : string) :
  split sep (a ++ String sep b) = (split sep a ++ split sep b)%list.
Proof.
  induction a as [|c a IH].
  - simpl. rewrite Ascii.eqb_refl. reflexivity.
  - change (String c a ++ String sep b) with (String c (a ++ String sep b)).
    destruct (Ascii.eqb c sep) eqn:Hc.
    + simpl. rewrite Hc, IH. reflexivity.
    + destruct (split_cons_other c a Hc) as [h [t [Ea Eca]]].
      rewrite Eca. simpl. rewrite Hc, IH, Ea. reflexivity.
Qed.

Lemma split_no_sep (s : string) :
  has_char sep s = false -> split sep s = [s].
Proof.
  unfold has_char. induction s as [|c s IH]; simpl; intros H.
  - reflexivity.
  - apply orb_false_iff in H. destruct H as [Hc Hs].
    rewrite Ascii.eqb_sym in Hc. rewrite Hc, (IH Hs). reflexivity.
Qed.

(** No piece holds the separator. *)
Lemma split_pieces_no_sep (s : string) :
  Forall (fun piece => has_char sep piece = false) (split sep s).
Proof.
  induction s as [|c s IH].
  - repeat constructor.
  - destruct (Ascii.eqb c sep) eqn:Hc.
    + simpl. rewrite Hc. constructor; [reflexivity | exact IH].
    + destruct (split_cons_other c s Hc) as [h [t [Es Ecs]]].
      rewrite Ecs. rewrite Es in IH. inversion IH as [|? ? Hh Ht]; subst.
      constructor; [|exact Ht].
      unfold has_char in *. simpl. rewrite Ascii.eqb_sym, Hc. exact Hh.
Qed.

(** Joining the pieces with the separator gives the string back. *)
Lemma join_split (s : string) :
  join (String sep "") (split sep s) = s.
Proof.
  unfold join. induction s as [|c s IH].
  - reflexivity.
  - destruct (Ascii.eqb c sep) eqn:Hc.
    + simpl. rewrite Hc. apply Ascii.eqb_eq in Hc. subst c.
      destruct (split sep s) as [|h t] eqn:E.
      * exfalso. exact (split_not_nil s E).
      * change (String.concat (String sep "") ("" :: h :: t))
          with (String sep (String.concat (String sep "") (h :: t))).
        rewrite IH. reflexivity.
    + destruct (split_cons_other c s Hc) as [h [t [Es Ecs]]].
      rewrite Ecs. rewrite Es in IH. destruct t as [|h' t].
      * simpl in *. rewrite IH. reflexivity.
      * rewrite <- IH. reflexivity.
Qed.

(** Exactly two pieces: one separator, between them. *)
Lemma split_two (s h n : string) :
  split sep s = [h; n] <->
  s = h ++ String sep n /\ has_char sep h = false /\ has_char sep n = false.
Proof.
  split.
  - intros E. split.
    + rewrite <- (join_split s), E. reflexivity.
    + pose proof (split_pieces_no_sep s) as F. rewrite E in F.
      inversion F as [|? ? Hh F']; subst. inversion F' as [|? ? Hn _]; subst.
      auto.
  - intros [-> [Hh Hn]].
    rewrite split_app_sep, (split_no_sep h Hh), (split_no_sep n Hn).
    reflexivity.
Qed.

End SplitFacts.


(* ===================================================================== *)
(** ** The repository name of an hgrc                                     *)
(* ===================================================================== *)

Lemma string_app_nil_r (s : string) : s ++ "" = s.
Proof.
  induction s as [|c s IH]; simpl; [reflexivity | rewrite IH; reflexivity].
Qed.

Lemma path_segments_app_slash (a b : string) :
  path_segments (a ++ String "/" b) = (path_segments a ++ path_segments b)%list.
Proof.
  unfold path_segments. rewrite split_app_sep. apply filter_app.
Qed.

Lemma path_segments_slashes (s : string) :
  all_chars "/" s = true -> path_segments s = [].
Proof.
  unfold all_chars. induction s as [|c s IH];
    cbn [forallb list_ascii_of_string]; intros H.
  - reflexivity.
  - apply andb_prop in H. destruct H as [Hc Hs].
    apply Ascii.eqb_eq in Hc. subst c.
    change (String "/" s) with ("" ++ String "/" s).
    rewrite path_segments_app_slash. rewrite (IH Hs). reflexivity.
Qed.

Lemma path_segments_empty_inv (s : string) :
  path_segments s = [] -> all_chars "/" s = true.
Proof.
  unfold all_chars, path_segments. induction s as [|c s IH]; intros H.
  - reflexivity.
  - destruct (Ascii.eqb c "/") eqn:Hc.
    + cbn [split] in H. rewrite Hc in H. cbn [filter String.eqb negb] in H.
      cbn [forallb list_ascii_of_string].
      rewrite Ascii.eqb_sym, Hc. exact (IH H).
    + destruct (split_cons_other "/" c s Hc) as [h [t [_ E]]].
      rewrite E in H. simpl in H. discriminate.
Qed.

Lemma path_segments_name (name tail : string) :
  name <> "" -> has_char "/" name = false -> all_chars "/" tail = true ->
  path_segments (name ++ tail) = [name].
Proof.
  intros Hne Hname Htail.
  assert (Hone : path_segments name = [name]).
  { unfold path_segments. rewrite (split_no_sep "/" name Hname). simpl.
    destruct (name =? "") eqn:E; [|reflexivity].
    apply String.eqb_eq in E. contradiction. }
  destruct tail as [|c tail].
  - rewrite string_app_nil_r. exact Hone.
  - unfold all_chars in Htail. cbn [forallb list_ascii_of_string] in Htail.
    apply andb_prop in Htail. destruct Htail as [Hc Htail].
    apply Ascii.eqb_eq in Hc. subst c.
    rewrite path_segments_app_slash, Hone.
    rewrite (path_segments_slashes tail Htail). reflexivity.
Qed.

Lemma last_of_snoc (front : list string) (x : string) :
  match (front ++ [x])%list with
  | [] => inl IndexError
  | i :: l => inr (last l i)
  end = (inr x : config_exn + string).
Proof.
  destruct front as [|i front]; simpl.
  - reflexivity.
  - rewrite last_last. reflexivity.
Qed.

Lemma last_in_cons (l : list string) (i : string) : In (last l i) (i :: l).
Proof.
  revert i. induction l as [|x l IH]; intros i.
  - left. reflexivity.
  - right. destruct l as [|y l]; [left; reflexivity|].
    change (last (x :: y :: l) i) with (last (y :: l) i).
    replace (last (y :: l) i) with (last (y :: l) x); [apply IH|].
    clear. revert y. induction l as [|z l IHl]; intros y; [reflexivity|].
    change (last (y :: z :: l) x) with (last (z :: l) x).
    change (last (y :: z :: l) i) with (last (z :: l) i).
    apply IHl.
Qed.

(** The name is the last non-empty segment of [paths.default]: what comes
    before it up to a slash, and any slashes after it, play no part. *)
Theorem hgrc_repo_name_last_segment
    (cfg_get : string -> string -> config_exn + string)
    (default prefix name tail : string) :
  cfg_get "paths" "default" = inr default ->
  default = prefix ++ name ++ tail ->
  (prefix = "" \/ exists q, prefix = q ++ "/") ->
  name <> "" -> has_char "/" name = false -> all_chars "/" tail = true ->
  hgrc_repo_name cfg_get = inr name.
Proof.
  intros Hget Hdef Hprefix Hne Hname Htail.
  unfold hgrc_repo_name. rewrite Hget.
  assert (Hseg : exists front, path_segments default = (front ++ [name])%list).
  { subst default. destruct Hprefix as [-> | [q ->]].
    - exists []. exact (path_segments_name name tail Hne Hname Htail).
    - exists (path_segments q).
      rewrite string_app_assoc.
      change ("/" ++ name ++ tail) with (String "/" (name ++ tail)).
      rewrite path_segments_app_slash, path_segments_name by assumption.
      reflexivity. }
  destruct Hseg as [front ->]. apply last_of_snoc.
Qed.

Lemma hgrc_repo_name_last_segment_example :
  hgrc_repo_name (fun _ _ => inr "https://hg.mozilla.org/mozilla-central/")
  = inr "mozilla-central".
Proof.
  apply (hgrc_repo_name_last_segment
           (fun _ _ => inr "https://hg.mozilla.org/mozilla-central/")
           "https://hg.mozilla.org/mozilla-central/"
           "https://hg.mozilla.org/" "mozilla-central" "/").
  - reflexivity.
  - reflexivity.
  - right. exists "https://hg.mozilla.org". reflexivity.
  - discriminate.
  - reflexivity.
  - reflexivity.
Defined.

(** With a value for [paths.default], the function raises [IndexError]
    exactly when the value is made of slashes only (the empty value among
    them). *)
Theorem hgrc_repo_name_index_error
    (cfg_get : string -> string -> config_exn + string) (default : string) :
  cfg_get "paths" "default" = inr default ->
  (hgrc_repo_name cfg_get = inl IndexError <-> all_chars "/" default = true).
Proof.
  intros Hget. unfold hgrc_repo_name. rewrite Hget. split.
  - intros H. apply path_segments_empty_inv.
    destruct (path_segments default); [reflexivity | discriminate].
  - intros H. rewrite (path_segments_slashes default H). reflexivity.
Qed.

Lemma hgrc_repo_name_index_error_example :
  hgrc_repo_name (fun _ _ => inr "//") = inl IndexError.
Proof.
  apply (hgrc_repo_name_index_error (fun _ _ => inr "//") "//" eq_refl).
  reflexivity.
Defined.

(** A name that is returned is not empty, holds no slash, and is one of
    the pieces of [paths.default]. *)
Theorem hgrc_repo_name_shape
    (cfg_get : string -> string -> config_exn + string) (name : string) :
  hgrc_repo_name cfg_get = inr name ->
  name <> "" /\ has_char "/" name = false
  /\ exists default,
       cfg_get "paths" "default" = inr default
       /\ In name (split "/"%char default).
Proof.
  unfold hgrc_repo_name.
  destruct (cfg_get "paths" "default") as [e|default]; [discriminate|].
  destruct (path_segments default) as [|i l] eqn:E; [discriminate|].
  intros H. injection H as <-.
  assert (Hin : In (last l i) (path_segments default)).
  { rewrite E. apply last_in_cons. }
  unfold path_segments in Hin. apply filter_In in Hin.
  destruct Hin as [Hin Hne]. split; [|split].
  - intros Heq. rewrite Heq in Hne. discriminate.
  - pose proof (split_pieces_no_sep "/" default) as F.
    rewrite Forall_forall in F. exact (F _ Hin).
  - exists default. auto.
Qed.

Lemma hgrc_repo_name_shape_example :
  "mozilla-central" <> "" /\ has_char "/" "mozilla-central" = false.
Proof.
  destruct (hgrc_repo_name_shape
              (fun _ _ => inr "https://hg.mozilla.org/mozilla-central")
              "mozilla-central" eq_refl) as [Hne [Hslash _]].
  split; [exact Hne | exact Hslash].
Defined.


(* ===================================================================== *)
(** ** The ancestry check, both ways                                      *)
(* ===================================================================== *)

(** Once the child has run to its end, the check answers [True] exactly
    when there is output and the output does not carry
    "abort: unknown revision"; the exit status plays no part. *)
Theorem exists_and_is_ancestor_true_iff
    (world : Type) (spawn : list string -> option Z -> world -> run_outcome * world)
    (repo_dir rev_a rev_b : string) (w w' : world) (log : list event)
    (returncode : Z) (out : string) :
  spawn (ancestor_query repo_dir rev_a rev_b) (Some 999%Z) w
    = (Completed returncode out, w') ->
  (fst (exists_and_is_ancestor world spawn repo_dir rev_a rev_b (w, log))
     = Returned true
   <-> out <> ""
       /\ ~ (exists pre post, out = pre ++ "abort: unknown revision" ++ post)).
Proof.
  intros Hrun.
  rewrite (exists_and_is_ancestor_completed world spawn _ _ _ _ _ log _ _ Hrun).
  cbn [fst]. rewrite <- find_occurs. split.
  - intros H. injection H as H. apply andb_prop in H. destruct H as [Hne Hfind].
    split.
    + intros ->. discriminate.
    + apply Z.ltb_lt in Hfind. lia.
  - intros [Hne Hfind].
    apply String.eqb_neq in Hne. rewrite Hne.
    assert (Hlt : (find out "abort: unknown revision" <? 0)%Z = true)
      by (apply Z.ltb_lt; lia).
    rewrite Hlt. reflexivity.
Qed.

Lemma exists_and_is_ancestor_true_iff_example :
  fst (exists_and_is_ancestor unit (fixed_spawn (Completed 0 "0123456789ab"))
         "/repo" "0123456789ab" "ba9876543210" (tt, []))
  = Returned true
  <-> "0123456789ab" <> ""
      /\ ~ (exists pre post,
              "0123456789ab" = pre ++ "abort: unknown revision" ++ post).
Proof.
  apply (exists_and_is_ancestor_true_iff unit
           (fixed_spawn (Completed 0 "0123456789ab"))
           "/repo" "0123456789ab" "ba9876543210" tt tt [] 0%Z "0123456789ab").
  reflexivity.
Defined.

(** Whatever the history store answers, the check starts one child
    process, with the query for [rev_a] and [ancestor(rev_a,rev_b)], and
    does nothing else to the outside. *)
Theorem exists_and_is_ancestor_one_query
    (world : Type) (spawn : list string -> option Z -> world -> run_outcome * world)
    (repo_dir rev_a rev_b : string) (w : world) (log : list event) :
  snd (exists_and_is_ancestor world spawn repo_dir rev_a rev_b (w, log))
  = (snd (spawn (ancestor_query repo_dir rev_a rev_b) (Some 999%Z) w),
     (log ++ [Spawn [ "hg"; "-R"; repo_dir; "log"; "-r";
                      (rev_a ++ " and ancestor(" ++ rev_a ++ ","
                         ++ rev_b ++ ")")%string;
                      "--template={node|short}" ]])%list).
Proof.
  unfold exists_and_is_ancestor, bind, subprocess_run.
  destruct (spawn (ancestor_query repo_dir rev_a rev_b) (Some 999%Z) w)
    as [[returncode out| |] w']; reflexivity.
Qed.

(* ===================================================================== *)
(** ** The checkout position: the other paths                             *)
(* ===================================================================== *)

Lemma app_space_not_empty (h n : string) : (h ++ " " ++ n =? "") = false.
Proof. destruct h; reflexivity. Qed.

(** The returned case of the end of [get_repo_hash_and_id]: one blank, the
    hash before it and the local number after it. *)
Lemma hash_and_id_one_blank
    (world : Type) (hg_id_full h n : string) (b b' : bool)
    (st st' : state world) :
  hash_and_id hg_id_full b st = (Returned (h, n, b'), st')
  <-> hg_id_full = h ++ " " ++ n
      /\ has_char " " h = false /\ has_char " " n = false
      /\ b' = b /\ st' = st.
Proof.
  unfold hash_and_id. split.
  - destruct (hg_id_full =? ""); [discriminate|].
    destruct (split " " hg_id_full) as [|x [|y [|z l]]] eqn:E;
      try discriminate.
    unfold ret. intros H. injection H as -> -> -> ->.
    apply split_two in E. destruct E as [E [Hh Hn]]. auto.
  - intros [-> [Hh [Hn [-> ->]]]].
    rewrite app_space_not_empty.
    assert (E : split " " (h ++ " " ++ n) = [h; n]).
    { apply split_two. auto. }
    rewrite E. reflexivity.
Qed.

(** The end of [get_repo_hash_and_id], case by case.  It returns exactly
    on an output with one blank, the hash before it and the local number
    after it, and passes the flag through; it raises [AssertionError]
    exactly on the empty output; on every other output it raises
    [ValueError], the one of an unpacking that is short of values when
    there is no blank at all.  It leaves the outside alone. *)
Theorem hash_and_id_returns
    (world : Type) (hg_id_full : string) (b : bool) (st : state world) :
  (forall h n b' st',
     hash_and_id hg_id_full b st = (Returned (h, n, b'), st')
     <-> hg_id_full = h ++ " " ++ n
         /\ has_char " " h = false /\ has_char " " n = false
         /\ b' = b /\ st' = st)
  /\ (hash_and_id hg_id_full b st = (Raised AssertionError, st)
      <-> hg_id_full = "")
  /\ (hg_id_full <> "" ->
      ~ (exists h n, hg_id_full = h ++ " " ++ n
                     /\ has_char " " h = false /\ has_char " " n = false) ->
      exists msg, hash_and_id hg_id_full b st = (Raised (ValueError msg), st))
  /\ (hg_id_full <> "" -> has_char " " hg_id_full = false ->
      hash_and_id hg_id_full b st
      = (Raised (ValueError "not enough values to unpack (expected 2, got 1)"),
         st)).
Proof.
  split; [|split; [|split]].
  - intros h n b' st'. apply hash_and_id_one_blank.
  - unfold hash_and_id. split.
    + destruct (hg_id_full =? "") eqn:E.
      * intros _. apply String.eqb_eq. exact E.
      * destruct (split " " hg_id_full) as [|x [|y [|z l]]]; discriminate.
    + intros ->. reflexivity.
  - intros Hne Hform. unfold hash_and_id.
    apply String.eqb_neq in Hne. rewrite Hne.
    destruct (split " " hg_id_full) as [|x [|y [|z l]]] eqn:E.
    + eexists. reflexivity.
    + eexists. reflexivity.
    + exfalso. apply Hform. exists x, y. apply split_two. exact E.
    + eexists. reflexivity.
  - intros Hne Hblank. unfold hash_and_id.
    apply String.eqb_neq in Hne. rewrite Hne.
    rewrite (split_no_sep " " hg_id_full Hblank). reflexivity.
Qed.

Lemma hash_and_id_returns_example :
  hash_and_id "0123456789ab" true (tt, [])
  = (Raised (ValueError "not enough values to unpack (expected 2, got 1)"),
     (tt, [])).
Proof.
  destruct (hash_and_id_returns unit "0123456789ab" true (tt, []))
    as [_ [_ [_ Hshort]]].
  apply Hshort.
  - discriminate.
  - reflexivity.
Defined.

Lemma hash_and_id_keeps_state
    (world : Type) (hg_id_full : string) (b : bool) (st : state world) :
  snd (hash_and_id hg_id_full b st) = st.
Proof.
  unfold hash_and_id.
  destruct (hg_id_full =? ""); [reflexivity|].
  destruct (split " " hg_id_full) as [|x [|y [|z l]]]; reflexivity.
Qed.

(** On default: when the first query gives a hash, a blank and a number,
    these are returned with [True], after that one child process and
    without a prompt. *)
Theorem on_default_returns
    (world : Type) (spawn : list string -> option Z -> world -> run_outcome * world)
    (read_line : string -> world -> option string * world)
    (repo_dir repo_rev h n : string) (w w1 : world) (log : list event) :
  spawn (log_query repo_dir repo_rev) (Some 99%Z) w
    = (Completed 0 (h ++ " " ++ n), w1) ->
  has_char " " h = false -> has_char " " n = false ->
  get_repo_hash_and_id world spawn read_line repo_dir repo_rev (w, log)
  = (Returned (h, n, true),
     (w1, (log ++ [Spawn (log_query repo_dir repo_rev)])%list)).
Proof.
  intros Hquery Hh Hn. unfold get_repo_hash_and_id.
  unfold bind at 1. unfold subprocess_run at 1. rewrite Hquery.
  cbn [andb negb Z.eqb]. rewrite app_space_not_empty. cbn [negb].
  apply hash_and_id_one_blank. auto.
Qed.

Lemma on_default_returns_example :
  get_repo_hash_and_id unit (fixed_spawn (Completed 0 "0123456789ab 4711"))
    (fixed_line "a") "/repo" default_repo_rev (tt, [])
  = (Returned ("0123456789ab", "4711", true),
     (tt, [Spawn (log_query "/repo" default_repo_rev)])).
Proof.
  apply (on_default_returns unit (fixed_spawn (Completed 0 "0123456789ab 4711"))
           (fixed_line "a") "/repo" default_repo_rev "0123456789ab" "4711"
           tt tt []).
  - reflexivity.
  - reflexivity.
  - reflexivity.
Defined.

(** Any output of the first query, well-formed or not, keeps the operator
    out of it: no prompt, no second child process. *)
Theorem nonempty_output_no_prompt
    (world : Type) (spawn : list string -> option Z -> world -> run_outcome * world)
    (read_line : string -> world -> option string * world)
    (repo_dir repo_rev out : string) (w w1 : world) (log : list event) :
  spawn (log_query repo_dir repo_rev) (Some 99%Z) w = (Completed 0 out, w1) ->
  out <> "" ->
  snd (get_repo_hash_and_id world spawn read_line repo_dir repo_rev (w, log))
  = (w1, (log ++ [Spawn (log_query repo_dir repo_rev)])%list).
Proof.
  intros Hquery Hout. unfold get_repo_hash_and_id.
  unfold bind at 1. unfold subprocess_run at 1. rewrite Hquery.
  cbn [andb negb Z.eqb]. apply String.eqb_neq in Hout. rewrite Hout. cbn [negb].
  apply hash_and_id_keeps_state.
Qed.

Lemma nonempty_output_no_prompt_example :
  snd (get_repo_hash_and_id unit (fixed_spawn (Completed 0 "no-blank-here"))
         (fixed_line "a") "/repo" default_repo_rev (tt, []))
  = (tt, [Spawn (log_query "/repo" default_repo_rev)]).
Proof.
  apply (nonempty_output_no_prompt unit (fixed_spawn (Completed 0 "no-blank-here"))
           (fixed_line "a") "/repo" default_repo_rev "no-blank-here" tt tt []).
  - reflexivity.
  - discriminate.
Defined.

(** The first query runs with [check=True]: a non-zero exit status raises
    [CalledProcessError], a timeout and a failed start raise as well, and
    in each case nothing else is done. *)
Theorem position_query_failure
    (world : Type) (spawn : list string -> option Z -> world -> run_outcome * world)
    (read_line : string -> world -> option string * world)
    (repo_dir repo_rev : string) (w w1 : world) (log : list event)
    (o : run_outcome) :
  spawn (log_query repo_dir repo_rev) (Some 99%Z) w = (o, w1) ->
  let run := get_repo_hash_and_id world spawn read_line repo_dir repo_rev (w, log) in
  let after := (w1, (log ++ [Spawn (log_query repo_dir repo_rev)])%list) in
  match o with
  | Completed returncode out =>
      returncode <> 0%Z -> run = (Raised (CalledProcessError returncode), after)
  | TimedOut => run = (Raised TimeoutExpired, after)
  | LaunchFailed => run = (Raised OSError, after)
  end.
Proof.
  intros Hquery run after. subst run after.
  destruct o as [returncode out| |]; [intros Hrc| |];
    unfold get_repo_hash_and_id;
    unfold bind at 1; unfold subprocess_run at 1; rewrite Hquery.
  - apply Z.eqb_neq in Hrc. rewrite Hrc. reflexivity.
  - reflexivity.
  - reflexivity.
Qed.

Lemma position_query_failure_example :
  get_repo_hash_and_id unit
    (fixed_spawn (Completed 255 "")) (fixed_line "u")
    "/repo" default_repo_rev (tt, [])
  = (Raised (CalledProcessError 255),
     (tt, [Spawn (log_query "/repo" default_repo_rev)])).
Proof.
  apply (position_query_failure unit (fixed_spawn (Completed 255 ""))
           (fixed_line "u") "/repo" default_repo_rev tt tt []
           (Completed 255 "") eq_refl).
  discriminate.
Defined.

(** Run on from the operator's answer through one more
    [subprocess.run]. *)
Ltac run_child Hspawn :=
  unfold bind at 1; unfold bind at 1; unfold subprocess_run at 1;
  rewrite Hspawn; cbn [andb negb Z.eqb ret].

(** Answer ["u"]: the position is asked again with ["parents()"], and the
    hash and number it gives are returned with [False]. *)
Theorem use_current_returns
    (world : Type) (spawn : list string -> option Z -> world -> run_outcome * world)
    (read_line : string -> world -> option string * world)
    (repo_dir repo_rev answer h n : string) (w w1 w2 w3 : world)
    (log : list event) :
  spawn (log_query repo_dir repo_rev) (Some 99%Z) w = (Completed 0 "", w1) ->
  read_line not_on_default_prompt w1 = (Some answer, w2) ->
  strip answer = "u" ->
  spawn (log_query repo_dir "parents()") (Some 99%Z) w2
    = (Completed 0 (h ++ " " ++ n), w3) ->
  has_char " " h = false -> has_char " " n = false ->
  get_repo_hash_and_id world spawn read_line repo_dir repo_rev (w, log)
  = (Returned (h, n, false),
     (w3, (log ++ [ Spawn (log_query repo_dir repo_rev);
                    Input not_on_default_prompt;
                    Spawn (log_query repo_dir "parents()") ])%list)).
Proof.
  intros Hquery Hread Hu Hagain Hh Hn.
  to_answer Hquery Hread. rewrite Hu. cbn [String.eqb Ascii.eqb Bool.eqb].
  unfold bind at 1. unfold ret at 1.
  unfold bind at 1. unfold subprocess_run at 1. rewrite Hagain.
  cbn [andb negb Z.eqb].
  apply hash_and_id_one_blank. repeat split; auto.
  repeat rewrite <- app_assoc. reflexivity.
Qed.

Lemma use_current_returns_example :
  get_repo_hash_and_id (list run_outcome) scripted_spawn (scripted_line " u ")
    "/repo" default_repo_rev
    ([Completed 0 ""; Completed 0 "0123456789ab 4711"], [])
  = (Returned ("0123456789ab", "4711", false),
     ([], [ Spawn (log_query "/repo" default_repo_rev);
            Input not_on_default_prompt;
            Spawn (log_query "/repo" "parents()") ])).
Proof.
  apply (use_current_returns (list run_outcome) scripted_spawn
           (scripted_line " u ") "/repo" default_repo_rev " u "
           "0123456789ab" "4711"
           [Completed 0 ""; Completed 0 "0123456789ab 4711"]
           [Completed 0 "0123456789ab 4711"]
           [Completed 0 "0123456789ab 4711"] [] []);
    reflexivity.
Defined.

(** Answer ["d"]: [hg update default] runs, the first query is asked
    again, and the hash and number it now gives are returned with
    [True]. *)
Theorem update_default_returns
    (world : Type) (spawn : list string -> option Z -> world -> run_outcome * world)
    (read_line : string -> world -> option string * world)
    (repo_dir repo_rev answer out h n : string) (w w1 w2 w3 w4 : world)
    (log : list event) :
  spawn (log_query repo_dir repo_rev) (Some 99%Z) w = (Completed 0 "", w1) ->
  read_line not_on_default_prompt w1 = (Some answer, w2) ->
  strip answer = "d" ->
  spawn (update_default_cmd repo_dir) None w2 = (Completed 0 out, w3) ->
  spawn (log_query repo_dir repo_rev) (Some 99%Z) w3
    = (Completed 0 (h ++ " " ++ n), w4) ->
  has_char " " h = false -> has_char " " n = false ->
  get_repo_hash_and_id world spawn read_line repo_dir repo_rev (w, log)
  = (Returned (h, n, true),
     (w4, (log ++ [ Spawn (log_query repo_dir repo_rev);
                    Input not_on_default_prompt;
                    Spawn [ "hg"; "-R"; repo_dir; "update"; "default" ];
                    Spawn (log_query repo_dir repo_rev) ])%list)).
Proof.
  intros Hquery Hread Hd Hupdate Hagain Hh Hn.
  to_answer Hquery Hread. rewrite Hd. cbn [String.eqb Ascii.eqb Bool.eqb].
  run_child Hupdate.
  unfold bind at 1. unfold subprocess_run at 1. rewrite Hagain.
  cbn [andb negb Z.eqb].
  apply hash_and_id_one_blank. repeat split; auto.
  repeat rewrite <- app_assoc. reflexivity.
Qed.

Lemma update_default_returns_example :
  get_repo_hash_and_id (list run_outcome) scripted_spawn (scripted_line "d")
    "/repo" default_repo_rev
    ([Completed 0 ""; Completed 0 ""; Completed 0 "0123456789ab 4711"], [])
  = (Returned ("0123456789ab", "4711", true),
     ([], [ Spawn (log_query "/repo" default_repo_rev);
            Input not_on_default_prompt;
            Spawn [ "hg"; "-R"; "/repo"; "update"; "default" ];
            Spawn (log_query "/repo" default_repo_rev) ])).
Proof.
  apply (update_default_returns (list run_outcome) scripted_spawn
           (scripted_line "d") "/repo" default_repo_rev "d" ""
           "0123456789ab" "4711"
           [Completed 0 ""; Completed 0 ""; Completed 0 "0123456789ab 4711"]
           [Completed 0 ""; Completed 0 "0123456789ab 4711"]
           [Completed 0 ""; Completed 0 "0123456789ab 4711"]
           [Completed 0 "0123456789ab 4711"] [] []);
    reflexivity.
Defined.

(** Answer ["d"] with an update that ends with a non-zero exit status:
    [CalledProcessError], and the position is not asked again. *)
Theorem update_default_failure
    (world : Type) (spawn : list string -> option Z -> world -> run_outcome * world)
    (read_line : string -> world -> option string * world)
    (repo_dir repo_rev answer out : string) (returncode : Z)
    (w w1 w2 w3 : world) (log : list event) :
  spawn (log_query repo_dir repo_rev) (Some 99%Z) w = (Completed 0 "", w1) ->
  read_line not_on_default_prompt w1 = (Some answer, w2) ->
  strip answer = "d" ->
  spawn (update_default_cmd repo_dir) None w2 = (Completed returncode out, w3) ->
  returncode <> 0%Z ->
  get_repo_hash_and_id world spawn read_line repo_dir repo_rev (w, log)
  = (Raised (CalledProcessError returncode),
     (w3, (log ++ [ Spawn (log_query repo_dir repo_rev);
                    Input not_on_default_prompt;
                    Spawn (update_default_cmd repo_dir) ])%list)).
Proof.
  intros Hquery Hread Hd Hupdate Hrc.
  to_answer Hquery Hread. rewrite Hd. cbn [String.eqb Ascii.eqb Bool.eqb].
  unfold bind at 1. unfold bind at 1. unfold subprocess_run at 1.
  rewrite Hupdate. apply Z.eqb_neq in Hrc. rewrite Hrc. cbn [andb negb].
  repeat rewrite <- app_assoc. reflexivity.
Qed.

Lemma update_default_failure_example :
  get_repo_hash_and_id (list run_outcome) scripted_spawn (scripted_line "d")
    "/repo" default_repo_rev
    ([Completed 0 ""; Completed 1 ""; Completed 0 "0123456789ab 4711"], [])
  = (Raised (CalledProcessError 1),
     ([Completed 0 "0123456789ab 4711"],
      [ Spawn (log_query "/repo" default_repo_rev);
        Input not_on_default_prompt;
        Spawn (update_default_cmd "/repo") ])).
Proof.
  apply (update_default_failure (list run_outcome) scripted_spawn
           (scripted_line "d") "/repo" default_repo_rev "d" "" 1%Z
           [Completed 0 ""; Completed 1 ""; Completed 0 "0123456789ab 4711"]
           [Completed 1 ""; Completed 0 "0123456789ab 4711"]
           [Completed 1 ""; Completed 0 "0123456789ab 4711"]
           [Completed 0 "0123456789ab 4711"] []);
    try reflexivity.
  discriminate.
Defined.

(** Answer ["u"] and a second query that is empty as well: the assertion
    on the output fails. *)
Theorem requery_empty_asserts
    (world : Type) (spawn : list string -> option Z -> world -> run_outcome * world)
    (read_line : string -> world -> option string * world)
    (repo_dir repo_rev answer : string) (w w1 w2 w3 : world)
    (log : list event) :
  spawn (log_query repo_dir repo_rev) (Some 99%Z) w = (Completed 0 "", w1) ->
  read_line not_on_default_prompt w1 = (Some answer, w2) ->
  strip answer = "u" ->
  spawn (log_query repo_dir "parents()") (Some 99%Z) w2 = (Completed 0 "", w3) ->
  get_repo_hash_and_id world spawn read_line repo_dir repo_rev (w, log)
  = (Raised AssertionError,
     (w3, (log ++ [ Spawn (log_query repo_dir repo_rev);
                    Input not_on_default_prompt;
                    Spawn (log_query repo_dir "parents()") ])%list)).
Proof.
  intros Hquery Hread Hu Hagain.
  to_answer Hquery Hread. rewrite Hu. cbn [String.eqb Ascii.eqb Bool.eqb].
  unfold bind at 1. unfold ret at 1.
  unfold bind at 1. unfold subprocess_run at 1. rewrite Hagain.
  cbn [andb negb Z.eqb]. unfold hash_and_id. cbn [String.eqb]. unfold raise.
  repeat rewrite <- app_assoc. reflexivity.
Qed.

Lemma requery_empty_asserts_example :
  get_repo_hash_and_id unit (fixed_spawn (Completed 0 "")) (fixed_line "u")
    "/repo" default_repo_rev (tt, [])
  = (Raised AssertionError,
     (tt, [ Spawn (log_query "/repo" default_repo_rev);
            Input not_on_default_prompt;
            Spawn (log_query "/repo" "parents()") ])).
Proof.
  apply (requery_empty_asserts unit (fixed_spawn (Completed 0 ""))
           (fixed_line "u") "/repo" default_repo_rev "u" tt tt tt tt []);
    reflexivity.
Defined.


(* ===================================================================== *)
(** ** The required revisions: triggers, order, size                      *)
(* ===================================================================== *)

(** A row's revision is in the list exactly when the row's trigger
    matches. *)
Lemma in_required_revs_row
    (p : Platform) (o : Options) (flags : list string)
    (trig : trigger) (rev : string) :
  In (trig, rev) required_table ->
  (In rev (required_revs p o flags) <-> trig p o flags = true).
Proof.
  intros Hrow. rewrite required_revs_table, in_app_iff, in_matched_revs. split.
  - intros [[trig' [Hrow' Ht]] | [E | []]].
    + rewrite (row_of_rev_unique required_table trig trig' rev
                 required_table_revs_distinct Hrow Hrow').
      exact Ht.
    + exfalso. apply baseline_not_in_table. rewrite E.
      apply in_map_iff. exists (trig, rev). auto.
  - intros Ht. left. exists trig. auto.
Qed.

Lemma cpu_count_fold (flags : list string) (acc : bool) :
  fold_left
    (fun (cpu_count_flag : bool) (entry : string) =>
       if str_in "--cpu-count=" entry then true else cpu_count_flag)
    flags acc
  = acc || existsb (str_in "--cpu-count=") flags.
Proof.
  revert acc. induction flags as [|entry flags IH]; intros acc; simpl.
  - rewrite orb_false_r. reflexivity.
  - rewrite IH. destruct (str_in "--cpu-count=" entry), acc; reflexivity.
Qed.

Lemma cpu_count_flag_existsb (flags : list string) :
  cpu_count_flag flags = existsb (str_in "--cpu-count=") flags.
Proof. unfold cpu_count_flag. apply cpu_count_fold. Qed.

(** The loop sets [cpu_count_flag] when some flag holds "--cpu-count="
    anywhere in it, not only at its start. *)
Lemma cpu_count_flag_true (flags : list string) :
  cpu_count_flag flags = true <->
  exists entry pre post,
    In entry flags /\ entry = pre ++ "--cpu-count=" ++ post.
Proof.
  rewrite cpu_count_flag_existsb, existsb_exists. unfold str_in. split.
  - intros [entry [Hin H]]. apply Z.leb_le in H. apply find_occurs in H.
    destruct H as [pre [post E]]. exists entry, pre, post. auto.
  - intros [entry [pre [post [Hin E]]]]. exists entry. split; [exact Hin|].
    apply Z.leb_le. apply find_occurs. exists pre, post. exact E.
Qed.

(** The revision for [--cpu-count=<NUM>] is required exactly when some
    flag holds the text "--cpu-count=" somewhere in it; the other flags
    must match a whole entry. *)
Theorem cpu_count_revision_substring
    (p : Platform) (o : Options) (flags : list string) :
  In "1b55231e6628e70f0c2ee2b2cb40a1e9861ac4b4" (required_revs p o flags)
  <-> exists entry pre post,
        In entry flags /\ entry = pre ++ "--cpu-count=" ++ post.
Proof.
  rewrite <- cpu_count_flag_true.
  apply (in_required_revs_row p o flags (fun _ _ flags => cpu_count_flag flags)).
  unfold required_table. cbn [In]. tauto.
Qed.

Lemma list_in_same_elements (x : string) (flags flags' : list string) :
  (forall f, In f flags <-> In f flags') ->
  list_in x flags = list_in x flags'.
Proof.
  intros Hsame. apply eq_true_iff_eq. rewrite !list_in_In. apply Hsame.
Qed.

Lemma intersects_same_elements (l flags flags' : list string) :
  (forall f, In f flags <-> In f flags') ->
  intersects l flags = intersects l flags'.
Proof.
  intros Hsame. unfold intersects.
  rewrite (filter_ext (fun x => list_in x flags) (fun x => list_in x flags'));
    [reflexivity|].
  intros x. apply list_in_same_elements. exact Hsame.
Qed.

Lemma cpu_count_flag_same_elements (flags flags' : list string) :
  (forall f, In f flags <-> In f flags') ->
  cpu_count_flag flags = cpu_count_flag flags'.
Proof.
  intros Hsame. apply eq_true_iff_eq. rewrite !cpu_count_flag_true. split.
  - intros [entry [pre [post [Hin E]]]]. exists entry, pre, post.
    split; [apply Hsame; exact Hin | exact E].
  - intros [entry [pre [post [Hin E]]]]. exists entry, pre, post.
    split; [apply Hsame; exact Hin | exact E].
Qed.

(** Only which flags are given counts, not their order nor how often each
    is given: two flag lists with the same elements give the same
    revset. *)
Theorem flags_order_irrelevant
    (p : Platform) (o : Options) (flags flags' : list string)
    (skip_revs : string) :
  (forall f, In f flags <-> In f flags') ->
  required_revs p o flags = required_revs p o flags'
  /\ earliest_known_working_rev p o flags skip_revs
     = earliest_known_working_rev p o flags' skip_revs.
Proof.
  intros Hsame.
  assert (E : required_revs p o flags = required_revs p o flags').
  { rewrite !required_revs_table. unfold matched_revs. f_equal. f_equal.
    apply filter_ext_in. intros row Hrow.
    unfold required_table in Hrow. cbn [In] in Hrow.
    repeat (destruct Hrow as [<- | Hrow];
            [cbn [fst];
             rewrite ?(cpu_count_flag_same_elements flags flags' Hsame),
                     ?(intersects_same_elements _ flags flags' Hsame),
                     ?(list_in_same_elements _ flags flags' Hsame);
             reflexivity|]).
    contradiction. }
  split; [exact E|].
  unfold earliest_known_working_rev. rewrite E. reflexivity.
Qed.

Lemma flags_order_irrelevant_example :
  required_revs linux_x86_64 no_options ["--wasm-gc"; "--no-streams"; "--wasm-gc"]
  = required_revs linux_x86_64 no_options ["--no-streams"; "--wasm-gc"].
Proof.
  refine (proj1 (flags_order_irrelevant linux_x86_64 no_options
                   ["--wasm-gc"; "--no-streams"; "--wasm-gc"]
                   ["--no-streams"; "--wasm-gc"] "" _)).
  intros f. simpl. tauto.
Defined.


(* ===================================================================== *)
(** ** Order and size of the two lists                                    *)
(* ===================================================================== *)

Section Subseq.

Context {A : Type}.

Lemma subseq_refl (l : list A) : subseq l l.
Proof.
  induction l as [|x l IH]; [apply subseq_nil | apply subseq_keep; exact IH].
Qed.

Lemma subseq_nil_l (l : list A) : subseq [] l.
Proof.
  induction l as [|x l IH]; [apply subseq_nil | apply subseq_skip; exact IH].
Qed.

Lemma subseq_filter (f : A -> bool) (l : list A) : subseq (filter f l) l.
Proof.
  induction l as [|x l IH]; simpl.
  - apply subseq_nil.
  - destruct (f x); [apply subseq_keep | apply subseq_skip]; exact IH.
Qed.

Lemma subseq_app (a b c d : list A) :
  subseq a b -> subseq c d -> subseq (a ++ c) (b ++ d).
Proof.
  intros Hab Hcd. induction Hab; simpl.
  - exact Hcd.
  - apply subseq_skip. exact IHHab.
  - apply subseq_keep. exact IHHab.
Qed.

Lemma subseq_In (sub l : list A) (x : A) : subseq sub l -> In x sub -> In x l.
Proof.
  intros H. induction H; simpl; intros Hin.
  - contradiction.
  - right. auto.
  - destruct Hin as [E|Hin]; [left; exact E | right; auto].
Qed.

Lemma subseq_NoDup (sub l : list A) : subseq sub l -> NoDup l -> NoDup sub.
Proof.
  intros H. induction H; intros Hnd.
  - constructor.
  - inversion Hnd; subst. auto.
  - inversion Hnd as [|? ? Hnotin Hnd']; subst. constructor.
    + intros Hin. apply Hnotin. exact (subseq_In sub l x H Hin).
    + auto.
Qed.

Lemma subseq_length (sub l : list A) : subseq sub l -> length sub <= length l.
Proof. intros H. induction H; simpl; lia. Qed.

Lemma filter_drops (f : A -> bool) (l : list A) (x : A) :
  In x l -> f x = false -> length (filter f l) < length l.
Proof.
  induction l as [|y l IH]; simpl; intros Hin Hf; [contradiction|].
  pose proof (subseq_length _ _ (subseq_filter f l)) as Hle.
  destruct Hin as [->|Hin].
  - rewrite Hf. lia.
  - specialize (IH Hin Hf). destruct (f y); simpl; lia.
Qed.

Lemma NoDup_app_disjoint (l1 l2 : list A) (x : A) :
  NoDup (l1 ++ l2) -> In x l1 -> In x l2 -> False.
Proof.
  induction l1 as [|y l1 IH]; simpl; intros Hnd H1 H2; [contradiction|].
  inversion Hnd as [|? ? Hnotin Hnd']; subst.
  destruct H1 as [->|H1].
  - apply Hnotin. apply in_or_app. right. exact H2.
  - exact (IH Hnd' H1 H2).
Qed.

End Subseq.

Lemma subseq_map {A B : Type} (g : A -> B) (sub l : list A) :
  subseq sub l -> subseq (map g sub) (map g l).
Proof.
  intros H. induction H; simpl.
  - apply subseq_nil.
  - apply subseq_skip. assumption.
  - apply subseq_keep. assumption.
Qed.

(** The required revisions come in the order of the source, newest first,
    each at most once, the baseline last; there are at most twelve of
    them, the two Windows rows and the macOS row never matching
    together. *)
Theorem required_revs_in_source_order
    (p : Platform) (o : Options) (flags : list string) :
  subseq (required_revs p o flags)
    [ "7a1ad6647c22bd34a6c70e67dc26e5b83f71cea4";
      "48dc14f79fb0a51ca796257a4179fe6f16b71b14";
      "450b8f0cbb4e494b399ebcf23a33b8d9cb883245";
      "c6a8b4d451afa922c4838bd202749c7e131cf05e";
      "577ffed9f102439db47afebcef95bbaaa2e04c93";
      "c085e1b32fb9bbdb00360bfb0a1057d20a752f4c";
      "302befe7689abad94a75f66ded82d5e71b558dc4";
      "321c29f4850882a2f0220a4dc041c53992c47992";
      "a98f615965d73f6462924188fc2b1f2a620337bb";
      "b1dc87a94262c1bf2747d2bf560e21af5deb3174";
      "e2ecf684f49e9a6f6d072c289df68ef679968c4c";
      "1b55231e6628e70f0c2ee2b2cb40a1e9861ac4b4";
      "bb868860dfc35876d2d9c421c037c75a4fb9b3d2" ]
  /\ NoDup (required_revs p o flags)
  /\ 1 <= length (required_revs p o flags) <= 12.
Proof.
  rewrite required_revs_table.
  assert (Hsub : subseq (matched_revs p o flags ++ [baseline_rev])
                        (map snd required_table ++ [baseline_rev])).
  { apply subseq_app; [|apply subseq_refl].
    unfold matched_revs. apply subseq_map. apply subseq_filter. }
  split; [exact Hsub|]. split.
  - apply (subseq_NoDup _ _ Hsub).
    apply NoDup_app.
    + exact required_table_revs_distinct.
    + repeat constructor. intros [].
    + intros a Ha [<-|[]]. exact (baseline_not_in_table Ha).
  - rewrite length_app. cbn [length]. split; [lia|].
    unfold matched_revs. rewrite length_map.
    assert (Hlt : length (filter (fun row : trigger * string => fst row p o flags)
                            required_table) < length required_table).
    { destruct (system p =? "Darwin") eqn:D.
      - apply (filter_drops _ _
                 ((fun p _ _ => system p =? "Windows") : trigger,
                  "c085e1b32fb9bbdb00360bfb0a1057d20a752f4c")).
        + unfold required_table. cbn [In]. tauto.
        + cbn [fst]. apply String.eqb_eq in D. rewrite D. reflexivity.
      - apply (filter_drops _ _
                 ((fun p _ _ => system p =? "Darwin") : trigger,
                  "e2ecf684f49e9a6f6d072c289df68ef679968c4c")).
        + unfold required_table. cbn [In]. tauto.
        + cbn [fst]. exact D. }
    change (length required_table) with 12 in Hlt. lia.
Qed.

Lemma all_ranges_distinct : NoDup (flat_map snd exclusion_table).
Proof.
  unfold exclusion_table. cbn [flat_map snd app hgrange append].
  repeat (constructor; [cbn [In]; intuition discriminate|]).
  constructor.
Qed.

Lemma selected_ranges_subseq (p : Platform) (o : Options) :
  subseq (selected_ranges p o) (flat_map snd exclusion_table).
Proof.
  unfold selected_ranges.
  induction exclusion_table as [|row t IH]; simpl.
  - apply subseq_nil.
  - apply subseq_app; [|exact IH].
    destruct (fst row p o); [apply subseq_refl | apply subseq_nil_l].
Qed.

(** A range of a row is selected exactly when the row's condition
    holds. *)
Lemma in_selected_ranges_row
    (p : Platform) (o : Options)
    (cond : Platform -> Options -> bool) (ranges : list string) (r : string) :
  In (cond, ranges) exclusion_table -> In r ranges ->
  (In r (known_broken_ranges p o) <-> cond p o = true).
Proof.
  intros Hrow Hr. rewrite known_broken_ranges_table, in_selected_ranges. split.
  - intros [row' [Hrow' [Hc Hr']]].
    assert (E : row' = (cond, ranges)).
    { pose proof all_ranges_distinct as Hnd. revert Hnd Hrow Hrow'.
      generalize exclusion_table as t.
      induction t as [|x t IH]; simpl; intros Hnd Hrow Hrow'; [contradiction|].
      destruct Hrow as [Ex|Hrow], Hrow' as [Ex'|Hrow'].
      - congruence.
      - exfalso. subst x. apply (NoDup_app_disjoint _ _ r Hnd Hr).
        apply in_flat_map. exists row'. auto.
      - exfalso. subst x. apply (NoDup_app_disjoint _ _ r Hnd Hr').
        apply in_flat_map. exists (cond, ranges). auto.
      - apply IH; auto. exact (NoDup_app_remove_l _ _ Hnd). }
    rewrite E in Hc. exact Hc.
  - intros Hc. exists (cond, ranges). auto.
Qed.

(** The list follows the order of the source, holds no range twice, and
    has between four and eleven ranges: the macOS range and the three
    Linux ranges are never selected together. *)
Theorem known_broken_ranges_in_source_order (p : Platform) (o : Options) :
  subseq (known_broken_ranges p o)
    [ hgrange "4c72627cfc6c" "926f80f2c5cc";
      hgrange "1fb7ddfad86d" "5202cfbf8d60";
      hgrange "aae4f349fa58" "c5fbbf959e23";
      hgrange "f611bc50d11c" "39d0c50a2209";
      hgrange "3d0236f985f8" "32cef42080b1";
      hgrange "e94dceac8090" "516c01f62d84";
      hgrange "e8bb22053e65" "999757e9e5a5";
      hgrange "aa1da5ed8a07" "5a03382283ae";
      hgrange "c5561749c1c6" "f4c15a88c937";
      hgrange "247e265373eb" "e4aa68e2a85b";
      hgrange "427b854cdb1c" "4c4e45853808";
      hgrange "284002382c21" "05669ce25b03" ]
  /\ NoDup (known_broken_ranges p o)
  /\ 4 <= length (known_broken_ranges p o) <= 11.
Proof.
  pose proof (selected_ranges_subseq p o) as Hsub.
  rewrite <- known_broken_ranges_table in Hsub.
  split; [exact Hsub|]. split.
  - exact (subseq_NoDup _ _ Hsub all_ranges_distinct).
  - unfold known_broken_ranges.
    destruct (system p =? "Darwin") eqn:D.
    + apply String.eqb_eq in D. rewrite D. cbn [String.eqb Ascii.eqb Bool.eqb].
      destruct (enableDbg o), (enableMoreDeterministic o),
        (enableSimulatorArm32 o); cbn; lia.
    + destruct (system p =? "Linux"), (machine p =? "aarch64"),
        (disableProfiling o), (enableDbg o), (enableMoreDeterministic o),
        (enableSimulatorArm32 o); cbn [negb app length]; lia.
Qed.

(** Which platform each platform-bound range belongs to: the macOS range
    is selected exactly on Darwin, the GCC 5 range exactly on Linux, the
    aarch64 range exactly on Linux with an aarch64 machine, the profiling
    range exactly on Linux without [disableProfiling]. *)
Theorem platform_bound_ranges (p : Platform) (o : Options) :
  (In (hgrange "3d0236f985f8" "32cef42080b1") (known_broken_ranges p o)
     <-> system p = "Darwin")
  /\ (In (hgrange "e94dceac8090" "516c01f62d84") (known_broken_ranges p o)
      <-> system p = "Linux")
  /\ (In (hgrange "e8bb22053e65" "999757e9e5a5") (known_broken_ranges p o)
      <-> system p = "Linux" /\ machine p = "aarch64")
  /\ (In (hgrange "aa1da5ed8a07" "5a03382283ae") (known_broken_ranges p o)
      <-> system p = "Linux" /\ disableProfiling o = false).
Proof.
  repeat split.
  - intros H.
    apply (in_selected_ranges_row p o (fun p _ => system p =? "Darwin")
             [hgrange "3d0236f985f8" "32cef42080b1"]) in H;
      [apply String.eqb_eq; exact H | unfold exclusion_table; cbn [In]; tauto
       | left; reflexivity].
  - intros H.
    apply (in_selected_ranges_row p o (fun p _ => system p =? "Darwin")
             [hgrange "3d0236f985f8" "32cef42080b1"]);
      [unfold exclusion_table; cbn [In]; tauto | left; reflexivity
       | apply String.eqb_eq; exact H].
  - intros H.
    apply (in_selected_ranges_row p o (fun p _ => system p =? "Linux")
             [hgrange "e94dceac8090" "516c01f62d84"]) in H;
      [apply String.eqb_eq; exact H | unfold exclusion_table; cbn [In]; tauto
       | left; reflexivity].
  - intros H.
    apply (in_selected_ranges_row p o (fun p _ => system p =? "Linux")
             [hgrange "e94dceac8090" "516c01f62d84"]);
      [unfold exclusion_table; cbn [In]; tauto | left; reflexivity
       | apply String.eqb_eq; exact H].
  - apply (in_selected_ranges_row p o
             (fun p _ => (system p =? "Linux") && (machine p =? "aarch64"))
             [hgrange "e8bb22053e65" "999757e9e5a5"]) in H;
      [| unfold exclusion_table; cbn [In]; tauto | left; reflexivity].
    apply andb_prop in H. apply String.eqb_eq. exact (proj1 H).
  - apply (in_selected_ranges_row p o
             (fun p _ => (system p =? "Linux") && (machine p =? "aarch64"))
             [hgrange "e8bb22053e65" "999757e9e5a5"]) in H;
      [| unfold exclusion_table; cbn [In]; tauto | left; reflexivity].
    apply andb_prop in H. apply String.eqb_eq. exact (proj2 H).
  - intros [Hs Hm].
    apply (in_selected_ranges_row p o
             (fun p _ => (system p =? "Linux") && (machine p =? "aarch64"))
             [hgrange "e8bb22053e65" "999757e9e5a5"]);
      [unfold exclusion_table; cbn [In]; tauto | left; reflexivity |].
    cbn beta. rewrite Hs, Hm. reflexivity.
  - apply (in_selected_ranges_row p o
             (fun p o => (system p =? "Linux") && negb (disableProfiling o))
             [hgrange "aa1da5ed8a07" "5a03382283ae"]) in H;
      [| unfold exclusion_table; cbn [In]; tauto | left; reflexivity].
    apply andb_prop in H. apply String.eqb_eq. exact (proj1 H).
  - apply (in_selected_ranges_row p o
             (fun p o => (system p =? "Linux") && negb (disableProfiling o))
             [hgrange "aa1da5ed8a07" "5a03382283ae"]) in H;
      [| unfold exclusion_table; cbn [In]; tauto | left; reflexivity].
    apply andb_prop in H. destruct H as [_ H].
    destruct (disableProfiling o); [discriminate | reflexivity].
  - intros [Hs Hd].
    apply (in_selected_ranges_row p o
             (fun p o => (system p =? "Linux") && negb (disableProfiling o))
             [hgrange "aa1da5ed8a07" "5a03382283ae"]);
      [unfold exclusion_table; cbn [In]; tauto | left; reflexivity |].
    cbn beta. rewrite Hs, Hd. reflexivity.
Qed.


(* ===================================================================== *)
(** ** Triggers on the platform and on sets of flags                      *)
(* ===================================================================== *)

Lemma intersects_true (l flags : list string) :
  intersects l flags = true <-> exists x, In x l /\ In x flags.
Proof.
  unfold intersects. split.
  - destruct (filter (fun x => list_in x flags) l) as [|x rest] eqn:E;
      [discriminate|].
    intros _. assert (Hin : In x (filter (fun x => list_in x flags) l)).
    { rewrite E. left. reflexivity. }
    apply filter_In in Hin. destruct Hin as [Hl Hf].
    exists x. split; [exact Hl | apply list_in_In; exact Hf].
  - intros [x [Hl Hf]].
    assert (Hin : In x (filter (fun x => list_in x flags) l)).
    { apply filter_In. split; [exact Hl | apply list_in_In; exact Hf]. }
    destruct (filter (fun x => list_in x flags) l); [contradiction | reflexivity].
Qed.

(** The revision for [--wasm-compiler] is required exactly when one of the
    four spellings of the flag is among the flags. *)
Theorem wasm_compiler_revision
    (p : Platform) (o : Options) (flags : list string) :
  In "48dc14f79fb0a51ca796257a4179fe6f16b71b14" (required_revs p o flags)
  <-> In "--wasm-compiler=none" flags
      \/ In "--wasm-compiler=baseline+ion" flags
      \/ In "--wasm-compiler=baseline" flags
      \/ In "--wasm-compiler=ion" flags.
Proof.
  rewrite (in_required_revs_row p o flags
             (fun _ _ flags => intersects wasm_compiler_flags flags)
             "48dc14f79fb0a51ca796257a4179fe6f16b71b14");
    [| unfold required_table; cbn [In]; tauto].
  rewrite intersects_true. unfold wasm_compiler_flags. split.
  - intros [x [Hx Hf]]. cbn [In] in Hx.
    destruct Hx as [<-|[<-|[<-|[<-|[]]]]]; tauto.
  - intros [H|[H|[H|H]]]; eexists; (split; [|exact H]); cbn [In]; tauto.
Qed.

(** The two Windows revisions: the one for the Windows 10 SDK is required
    exactly on Windows, the one for 32-bit builds exactly on Windows with
    [enable32]; so the second never comes without the first. *)
Theorem windows_revisions (p : Platform) (o : Options) (flags : list string) :
  (In "c085e1b32fb9bbdb00360bfb0a1057d20a752f4c" (required_revs p o flags)
     <-> system p = "Windows")
  /\ (In "577ffed9f102439db47afebcef95bbaaa2e04c93" (required_revs p o flags)
      <-> system p = "Windows" /\ enable32 o = true).
Proof.
  split.
  - rewrite (in_required_revs_row p o flags
               (fun p _ _ => system p =? "Windows")
               "c085e1b32fb9bbdb00360bfb0a1057d20a752f4c");
      [| unfold required_table; cbn [In]; tauto].
    apply String.eqb_eq.
  - rewrite (in_required_revs_row p o flags
               (fun p o _ => (system p =? "Windows") && enable32 o)
               "577ffed9f102439db47afebcef95bbaaa2e04c93");
      [| unfold required_table; cbn [In]; tauto].
    rewrite andb_true_iff, String.eqb_eq. reflexivity.
Qed.

(* ===================================================================== *)
(** ** The revset that is returned                                        *)
(* ===================================================================== *)

Lemma common_descendants_snoc (front : list string) (r : string) :
  common_descendants (front ++ [r]) =
    String.concat "" (map (fun x => "descendants(" ++ x ++ ") and ") front)
    ++ "descendants(" ++ r ++ ")".
Proof.
  unfold common_descendants, join. induction front as [|x front IH].
  - reflexivity.
  - change (map (fun r0 => "descendants(" ++ r0 ++ ")") ((x :: front) ++ [r]))
      with (("descendants(" ++ x ++ ")")
              :: map (fun r0 => "descendants(" ++ r0 ++ ")") (front ++ [r])).
    destruct (map (fun r0 => "descendants(" ++ r0 ++ ")") (front ++ [r]))
      as [|y rest] eqn:E.
    + destruct front; discriminate.
    + change (String.concat " and " (("descendants(" ++ x ++ ")") :: y :: rest))
        with (("descendants(" ++ x ++ ")") ++ " and "
                ++ String.concat " and " (y :: rest)).
      rewrite IH.
      change (map (fun x0 => "descendants(" ++ x0 ++ ") and ") (x :: front))
        with (("descendants(" ++ x ++ ") and ")
                :: map (fun x0 => "descendants(" ++ x0 ++ ") and ") front).
      destruct (map (fun x0 => "descendants(" ++ x0 ++ ") and ") front)
        as [|z rest'] eqn:E'.
      * cbn [String.concat]. repeat rewrite string_app_assoc. reflexivity.
      * change (String.concat "" (("descendants(" ++ x ++ ") and ") :: z :: rest'))
          with (("descendants(" ++ x ++ ") and ") ++ ""
                  ++ String.concat "" (z :: rest')).
        repeat rewrite string_app_assoc. reflexivity.
Qed.

(** Off an unsupported macOS the function returns, and what it returns is
    [first((] ... [) - (skip_revs))] around one [descendants(...)] term for
    each required revision, each but the last followed by [" and "], the
    last one being the baseline's. *)
Theorem earliest_revset_text
    (p : Platform) (o : Options) (flags : list string) (skip_revs : string) :
  (system p = "Darwin" -> mac_ver_supported p = true) ->
  exists front,
    required_revs p o flags = (front ++ ["bb868860dfc35876d2d9c421c037c75a4fb9b3d2"])%list
    /\ earliest_known_working_rev p o flags skip_revs =
         Returned
           ("first(("
            ++ String.concat ""
                 (map (fun r => "descendants(" ++ r ++ ") and ") front)
            ++ "descendants(bb868860dfc35876d2d9c421c037c75a4fb9b3d2)"
            ++ ") - (" ++ skip_revs ++ "))").
Proof.
  intros Hmac. exists (matched_revs p o flags).
  split; [apply required_revs_table|].
  unfold earliest_known_working_rev.
  assert (Hassert : negb (negb (system p =? "Darwin") || mac_ver_supported p) = false).
  { destruct (system p =? "Darwin") eqn:D; [|reflexivity].
    apply String.eqb_eq in D. rewrite (Hmac D). reflexivity. }
  rewrite Hassert, required_revs_table.
  unfold baseline_rev. rewrite common_descendants_snoc.
  repeat rewrite string_app_assoc. reflexivity.
Qed.

Lemma earliest_revset_text_example :
  exists front,
    required_revs linux_x86_64 no_options ["--wasm-gc"]
      = (front ++ ["bb868860dfc35876d2d9c421c037c75a4fb9b3d2"])%list
    /\ earliest_known_working_rev linux_x86_64 no_options ["--wasm-gc"] "x" =
         Returned
           ("first(("
            ++ String.concat ""
                 (map (fun r => "descendants(" ++ r ++ ") and ") front)
            ++ "descendants(bb868860dfc35876d2d9c421c037c75a4fb9b3d2)"
            ++ ") - (" ++ "x" ++ "))").
Proof.
  apply (earliest_revset_text linux_x86_64 no_options ["--wasm-gc"] "x").
  intros H. discriminate H.
Defined.

(** Without flags, and neither on Windows nor on macOS, the baseline is
    the only lower bound, whatever the options. *)
Theorem no_flags_baseline_only
    (p : Platform) (o : Options) (skip_revs : string) :
  system p <> "Windows" -> system p <> "Darwin" ->
  earliest_known_working_rev p o [] skip_revs =
    Returned ("first((descendants(bb868860dfc35876d2d9c421c037c75a4fb9b3d2)) - ("
              ++ skip_revs ++ "))").
Proof.
  intros Hw Hd. apply String.eqb_neq in Hw, Hd.
  unfold earliest_known_working_rev, required_revs.
  rewrite Hw, Hd. reflexivity.
Qed.

Lemma no_flags_baseline_only_example :
  earliest_known_working_rev linux_x86_64 no_options [] "x" =
    Returned "first((descendants(bb868860dfc35876d2d9c421c037c75a4fb9b3d2)) - (x))".
Proof.
  apply (no_flags_baseline_only linux_x86_64 no_options "x"); discriminate.
Defined.
